(** * c3bottles: status inference, visit priority and history of drop points

    A shallow embedding of [c3bottles/model/drop_point.py] and of
    [c3bottles/lib/statistics.py].

    Conventions of the embedding.

    - A [datetime] is an integer number of microseconds ([Z]); a
      [timedelta] is the difference of two of them and [total_seconds]
      divides it by [10^6].
    - The visit priority is embedded twice.  [Priority] has Python's own
      numbers: unbounded integers and binary64 floats ([Py], [Binary64]),
      each operation rounding to the nearest float, ties to even, and
      raising [ZeroDivisionError] and [OverflowError] where Python's does;
      the statements about the values of factor and score are made there.
      [DropPoint.get_priority_factor] and [DropPoint.get_priority] idealise
      floats as exact rationals ([Qc]), with [round(x, 2)] the nearest
      multiple of [1/100], ties to even; they serve the statements that do
      not depend on the rounding, and the summary [get_dp_info].
    - A Python exception is the [Raise] case of [result].
    - A query on the store returns its rows as a list in table order;
      [order_by] is a stable sort of that list (the database leaves the
      order of rows with equal keys open; a stable sort is one admissible
      choice, and it is also what Python's [sorted] does).
    - [Report.states], [Visit.actions], [Report.get_weight] and the
      application's [config] are defined outside the modelled files; they
      are parameters of the development. *)

From Stdlib Require Import ZArith QArith Qcanon Qround Qpower Qabs Lia Lqa.
From Stdlib Require Import Sorting.Sorted Sorting.Permutation.
From stdpp Require Import base numbers option list strings gmap pretty.

Local Open Scope Z_scope.

(** ** Python values, exceptions and results *)

Inductive exn : Type :=
| AttributeError
| IndexError
| OverflowError
| RuntimeError
| TypeError
| ValueError
| ZeroDivisionError
| StoreError.

Inductive result (A : Type) : Type :=
| Ok (a : A)
| Raise (e : exn).

Arguments Ok {A} a.
Arguments Raise {A} e.

Global Instance result_ret : MRet result := λ A a, Ok a.

Global Instance result_bind : MBind result := λ A B k m,
  match m with
  | Ok a => k a
  | Raise e => Raise e
  end.

(** [seq[i]] on a tuple or list, with Python's negative indices. *)
Definition getitem {A} (l : list A) (i : Z) : result A :=
  let n := Z.of_nat (length l) in
  let j := if i <? 0 then i + n else i in
  if (j <? 0) || (n <=? j) then Raise IndexError
  else match l !! Z.to_nat j with
       | Some x => Ok x
       | None => Raise IndexError
       end.

(** ** Time *)

Definition datetime := Z.

(** [datetime.max - datetime.min], in microseconds. *)
Definition datetime_span : Z := 315537897599999999.

Definition total_seconds (delta : Z) : Qc := Q2Qc (delta # 1000000).

(** ** Rational arithmetic standing for float arithmetic

    The idealisation: no rounding, no overflow. *)

(** An integer literal or value used as a number. *)
Definition num (n : Z) : Qc := Q2Qc (inject_Z n).

Definition Qc_sum (l : list Qc) : Qc := foldr Qcplus (num 0) l.

(** [x / y] on floats: a zero divisor raises. *)
Definition py_div (x y : Qc) : result Qc :=
  if decide (y = num 0) then Raise ZeroDivisionError else Ok (x / y)%Qc.

Definition round_half_even (x : Q) : Z :=
  let f := Qfloor x in
  match (x - inject_Z f ?= 1 # 2)%Q with
  | Lt => f
  | Gt => f + 1
  | Eq => if Z.even f then f else f + 1
  end.

(** [round(x, 2)]. *)
Definition py_round2 (x : Qc) : Qc :=
  Q2Qc (inject_Z (round_half_even (x * 100)%Q) / 100).

(** ** Binary64 floating point

    Python's [float]: the values, and the operations by their values.  A
    finite non-zero float carries the rational it stands for; the result
    of an operation is the exact result rounded to 53 binary digits, ties
    to even, with gradual underflow and overflow to an infinity. *)

Module Binary64.

(** The floor of the binary logarithm of a positive rational. *)
Definition Qlog2 (x : Q) : Z :=
  let l := Z.log2 (Qnum x) - Z.log2 (Zpos (Qden x)) in
  if Qle_bool (2 ^ l) x then l else l - 1.

(** The exponent of the last binary digit kept for a positive [x]: 53
    digits, and never below the exponent of the smallest subnormal. *)
Definition ulp_exp (x : Q) : Z := Z.max (Qlog2 x - 52) (-1074).

(** A positive rational rounded to the nearest multiple of
    [2 ^ ulp_exp x], ties to the even multiple. *)
Definition RN_pos (x : Q) : Q :=
  (inject_Z (round_half_even (x / 2 ^ ulp_exp x)) * 2 ^ ulp_exp x)%Q.

(** Round to nearest, ties to even, with no bound on the exponent above. *)
Definition RN (x : Q) : Q :=
  match (x ?= 0)%Q with
  | Eq => 0%Q
  | Gt => RN_pos x
  | Lt => (- RN_pos (- x))%Q
  end.

(** A float: a zero with its sign, a non-zero finite value, an infinity
    with its sign, or a NaN. *)
Inductive float : Type :=
| Zero (negative : bool)
| Finite (x : Qc)
| Inf (negative : bool)
| NaN.

Definition Qneg (x : Q) : bool := negb (Qle_bool 0 x).

(** The float that an operation with exact result [x] returns: [x]
    rounded, an infinity when the rounded value leaves the range, a zero
    of the sign of [x] when it underflows. *)
Definition round (x : Q) : float :=
  let y := RN x in
  if Qeq_bool y 0 then Zero (Qneg x)
  else if Qle_bool (2 ^ 1024) (Qabs y) then Inf (Qneg x)
  else Finite (Q2Qc y).

Definition sign (a : float) : bool :=
  match a with
  | Zero s | Inf s => s
  | Finite x => Qneg x
  | NaN => false
  end.

Definition add (a b : float) : float :=
  match a, b with
  | NaN, _ | _, NaN => NaN
  | Inf s, Inf s' => if Bool.eqb s s' then Inf s else NaN
  | Inf s, _ | _, Inf s => Inf s
  | Zero s, Zero s' => Zero (s && s')
  | Zero _, c | c, Zero _ => c
  | Finite x, Finite y => round (x + y)%Q
  end.

Definition mul (a b : float) : float :=
  match a, b with
  | NaN, _ | _, NaN => NaN
  | Inf _, Zero _ | Zero _, Inf _ => NaN
  | Inf _, _ | _, Inf _ => Inf (xorb (sign a) (sign b))
  | Zero _, _ | _, Zero _ => Zero (xorb (sign a) (sign b))
  | Finite x, Finite y => round (x * y)%Q
  end.

Definition div (a b : float) : float :=
  match a, b with
  | NaN, _ | _, NaN => NaN
  | Inf _, Inf _ | Zero _, Zero _ => NaN
  | Inf _, _ | _, Zero _ => Inf (xorb (sign a) (sign b))
  | Zero _, _ | _, Inf _ => Zero (xorb (sign a) (sign b))
  | Finite x, Finite y => round (x / y)%Q
  end.

(** The float nearest to the quotient of two integers, the second not
    zero. *)
Definition of_quotient (m n : Z) : float :=
  if decide (m = 0) then Zero (n <? 0)
  else round (inject_Z m / inject_Z n)%Q.

Definition of_Z (n : Z) : float := round (inject_Z n).

Definition is_zero (a : float) : bool :=
  match a with Zero _ => true | _ => false end.

(** [a <= b] and [a < b] on floats: false as soon as one is a NaN, and
    the two zeros are equal. *)
Definition leb (a b : float) : bool :=
  match a, b with
  | NaN, _ | _, NaN => false
  | Inf true, _ | _, Inf false => true
  | _, Inf true | Inf false, _ => false
  | Zero _, Zero _ => true
  | Zero _, Finite y => Qle_bool 0 y
  | Finite x, Zero _ => Qle_bool x 0
  | Finite x, Finite y => Qle_bool x y
  end.

Definition ltb (a b : float) : bool :=
  match a, b with
  | NaN, _ | _, NaN => false
  | _, _ => negb (leb b a)
  end.

(** The number a zero or a finite float stands for. *)
Definition value (a : float) : Q :=
  match a with
  | Finite x => x
  | _ => 0%Q
  end.

End Binary64.

(** ** Python numbers

    The numbers of the source are [int]s and [float]s.  An operation on
    two [int]s is exact, except [/], which gives the float nearest to the
    quotient.  In an operation with a [float] an [int] operand is converted
    first, which raises [OverflowError] when it is too large.  Float [+]
    and [*] do not raise; [/] raises [ZeroDivisionError] on a zero
    divisor. *)

Module Py.
Import Binary64.

Inductive num : Type :=
| Int (n : Z)
| Float (x : float).

(** The result of a conversion or of an integer division, which raise
    [OverflowError] when the rounded value is out of range. *)
Definition checked (x : float) : result float :=
  match x with
  | Inf _ => Raise OverflowError
  | _ => Ok x
  end.

(** Conversion of an operand of a float operation: [float(n)] for an
    [int]. *)
Definition as_float (a : num) : result float :=
  match a with
  | Int n => checked (of_Z n)
  | Float x => Ok x
  end.

(** [a + b] *)
Definition add (a b : num) : result num :=
  match a, b with
  | Int m, Int n => Ok (Int (m + n))
  | _, _ => x ← as_float a; y ← as_float b; Ok (Float (Binary64.add x y))
  end.

(** [a * b] *)
Definition mul (a b : num) : result num :=
  match a, b with
  | Int m, Int n => Ok (Int (m * n))
  | _, _ => x ← as_float a; y ← as_float b; Ok (Float (Binary64.mul x y))
  end.

(** [a / b] *)
Definition truediv (a b : num) : result num :=
  match a, b with
  | Int m, Int n =>
      if decide (n = 0) then Raise ZeroDivisionError
      else x ← checked (of_quotient m n); Ok (Float x)
  | _, _ =>
      x ← as_float a; y ← as_float b;
      if is_zero y then Raise ZeroDivisionError
      else Ok (Float (Binary64.div x y))
  end.

(** [round(a, 2)]: an [int] is returned as it is, and so are a zero, an
    infinity and a NaN; a finite float is rounded, by its exact value, to
    the nearest multiple of [1/100], ties to even, and the float nearest
    to that multiple is returned. *)
Definition round2 (a : num) : result num :=
  match a with
  | Int n => Ok (Int n)
  | Float (Finite x) =>
      let k := round_half_even (x * 100)%Q in
      y ← checked (if decide (k = 0) then Zero (Qneg x)
                   else of_quotient k 100);
      Ok (Float y)
  | Float x => Ok (Float x)
  end.

End Py.

(** ** Queries: stable ordering *)

Section Ordering.
Context {A : Type}.

Fixpoint insert_by (before : A → A → bool) (x : A) (l : list A) : list A :=
  match l with
  | [] => [x]
  | y :: l' => if before x y then x :: l else y :: insert_by before x l'
  end.

Definition sort_by (before : A → A → bool) (l : list A) : list A :=
  foldr (insert_by before) [] l.

(** [query.order_by(key)] and [sorted(l, key=key)]. *)
Definition order_by_asc (key : A → Z) : list A → list A :=
  sort_by (λ x y, key x <=? key y).

(** [query.order_by(key.desc())] and [sorted(l, key=key, reverse=True)]. *)
Definition order_by_desc (key : A → Z) : list A → list A :=
  sort_by (λ x y, key y <=? key x).
End Ordering.

(** ** The records of the store *)

Module Location.
Record t : Type := mk {
  time : datetime;
  description : string;
  lat : Qc;
  lng : Qc;
  level : Z
}.
End Location.

Module Report.
Record t : Type := mk {
  time : datetime;
  state : string
}.
End Report.

Module Visit.
Record t : Type := mk {
  time : datetime;
  action : string
}.
End Visit.

(** ** The drop point *)

Module DropPoint.

(** The columns of a drop point together with the rows that refer to it.
    [location_rows], [report_rows] and [visit_rows] are in table order. *)
Record t : Type := mk {
  number : Z;
  time : datetime;
  removed : option datetime;
  location_rows : list Location.t;
  report_rows : list Report.t;
  visit_rows : list Visit.t;
  type : string
}.

(** The relationship [locations], declared [order_by="Location.time"]. *)
Definition locations (self : t) : list Location.t :=
  order_by_asc Location.time (location_rows self).

(** The dynamic relationships [reports] and [visits] are queries. *)
Definition reports (self : t) : list Report.t := report_rows self.
Definition visits (self : t) : list Visit.t := visit_rows self.

(** The argument [time] of [remove]: [None], a [datetime], or any other
    object, of which only its truth value matters. *)
Inductive time_arg : Type :=
| PyNone
| PyDatetime (d : datetime)
| PyOther (truthy : bool).

Definition truth (a : time_arg) : bool :=
  match a with
  | PyNone => false
  | PyDatetime _ => true
  | PyOther b => b
  end.

Definition isinstance_datetime (a : time_arg) : bool :=
  match a with
  | PyDatetime _ => true
  | _ => false
  end.

Definition set_removed (self : t) (d : datetime) : t :=
  mk (number self) (time self) (Some d) (location_rows self)
     (report_rows self) (visit_rows self) (type self).

(** [remove(self, time)]; [today] is the reading of [datetime.today()].
    The first component is the object after the call. *)
Definition remove (self : t) (time : time_arg) (today : datetime)
  : t * result unit :=
  if bool_decide (is_Some (removed self)) then (self, Raise RuntimeError)
  else if truth time && negb (isinstance_datetime time)
  then (self, Raise TypeError)
  else match time with
       | PyDatetime d =>
           if today <? d then (self, Raise ValueError)
           else (set_removed self d, Ok ())
       | _ => (set_removed self today, Ok ())
       end.

Definition get_current_location (self : t) : option Location.t :=
  match locations self with
  | [] => None
  | _ :: _ => last (locations self)
  end.

Definition get_total_report_count (self : t) : nat :=
  length (reports self).

Definition get_last_report (self : t) : option Report.t :=
  head (order_by_desc Report.time (reports self)).

Definition get_last_visit (self : t) : option Visit.t :=
  head (order_by_desc Visit.time (visits self)).

Definition get_new_report_count (self : t) : nat :=
  match get_last_visit self with
  | Some last_visit =>
      length (filter (λ r, Visit.time last_visit < Report.time r)
                     (reports self))
  | None => get_total_report_count self
  end.

Definition get_new_reports (self : t) : list Report.t :=
  match get_last_visit self with
  | Some last_visit =>
      order_by_desc Report.time
        (filter (λ r, Visit.time last_visit < Report.time r) (reports self))
  | None => order_by_desc Report.time (reports self)
  end.

Definition get_priority_base_time (self : t) : datetime :=
  match get_last_visit self with
  | Some last_visit => Visit.time last_visit
  | None => time self
  end.

(** The entries of the history: a dict with the key ["time"] and one
    further key naming the kind of the entry. *)
Inductive entry : Type :=
| visit (v : Visit.t)
| report (r : Report.t)
| location (l : Location.t)
| drop_point (dp : t)
| removed_flag (b : bool).

Record event : Type := mk_event { event_time : datetime; event_entry : entry }.

Definition history_unsorted (self : t) : list event :=
  let history := [] in
  let history :=
    history ++ map (λ v, mk_event (Visit.time v) (visit v)) (visits self) in
  let history :=
    history ++ map (λ r, mk_event (Report.time r) (report r)) (reports self) in
  let history :=
    history ++ map (λ l, mk_event (Location.time l) (location l))
                   (locations self) in
  let history := history ++ [mk_event (time self) (drop_point self)] in
  match removed self with
  | Some d => history ++ [mk_event d (removed_flag true)]
  | None => history
  end.

Definition get_history (self : t) : list event :=
  order_by_desc event_time (history_unsorted self).

Section Engine.
(** [Report.states] and [Visit.actions]. *)
Variable Report_states : list string.
Variable Visit_actions : list string.
(** [report.get_weight()]. *)
Variable get_weight : Report.t → Qc.
(** [c3bottles.config]. *)
Variable config : gmap string Qc.

(** The loop over the visits after the last report. *)
Fixpoint scan_visits (last_report : Report.t) (visits : list Visit.t)
  : result string :=
  match visits with
  | [] => Ok (Report.state last_report)
  | v :: rest =>
      a ← getitem Visit_actions 0;
      if String.eqb (Visit.action v) a
      then getitem Report_states (-1)
      else scan_visits last_report rest
  end.

Definition get_last_state (self : t) : result string :=
  let last_report := get_last_report self in
  let last_visit := get_last_visit self in
  match last_report, last_visit with
  | Some last_report, Some last_visit =>
      if Report.time last_report <? Visit.time last_visit then
        scan_visits last_report
          (order_by_desc Visit.time
             (filter (λ v, Report.time last_report < Visit.time v)
                     (visits self)))
      else Ok (Report.state last_report)
  | Some last_report, None => Ok (Report.state last_report)
  | None, Some last_visit =>
      a ← getitem Visit_actions 0;
      if String.eqb (Visit.action last_visit) a
      then getitem Report_states (-1)
      else getitem Report_states 1
  | None, None => getitem Report_states 1
  end.

(** [dict.get(key, default)] on the configuration. *)
Definition config_get (key : string) (dflt : Qc) : Qc :=
  default dflt (config !! key).

Definition get_visit_interval : Qc :=
  (num 60 * config_get "BASE_VISIT_INTERVAL" (num 120))%Qc.

(** The body of the loop of [get_priority_factor], on [(priority, i)]. *)
Definition add_report (acc : Qc * nat) (report : Report.t) : Qc * nat :=
  ((acc.1 + get_weight report / num 2 ^ acc.2)%Qc, S acc.2).

Definition get_priority_factor (self : t) : result Qc :=
  if bool_decide (is_Some (removed self)) then Ok (num 0)
  else
    let new_reports := get_new_reports self in
    let priority := config_get "DEFAULT_VISIT_PRIORITY" (num 1) in
    let priority := (foldl add_report (priority, 0%nat) new_reports).1 in
    py_div priority (num 1 * get_visit_interval)%Qc.

Definition get_priority (self : t) (today : datetime) : result Qc :=
  factor ← get_priority_factor self;
  let priority :=
    (factor * total_seconds (today - get_priority_base_time self))%Qc in
  Ok (py_round2 priority).
End Engine.

(** *** Creation, lookup and summary *)

(** [db.session.query(DropPoint).get(number)]: the row of the table with
    that primary key, if any. *)
Definition query_get (table : list t) (n : Z) : option t :=
  head (filter (λ dp, number dp = n) table).

(** [DropPoint.get(number)], for an integer [number]. *)
Definition get (table : list t) (n : Z) : option t := query_get table n.

Definition get_typename (self : t) : string :=
  if String.eqb (type self) "trashcan" then "Trashcan" else "Drop Point".

(** [query.order_by(desc(DropPoint.number)).limit(1).first()], plus one. *)
Definition get_next_free_number (table : list t) : Z :=
  match head (order_by_desc number table) with
  | Some last => number last + 1
  | None => 1
  end.

(** The argument [number] of the constructor, by the outcome of
    [int(number)]: an integer, or a [TypeError] or [ValueError]. *)
Inductive number_arg : Type :=
| IntLike (n : Z)
| NotInt.

(** One entry of the errors of a [ValueError]: a dict of one field name
    and its message. *)
Definition error : Type := string * string.

Section Init.
(** The arguments handed on to [Location], and the outcome of
    [Location(self, time=self.time, ...)] for the object under
    construction, given by its number, type and time: the new location,
    which attaches itself to the drop point, or the arguments of the
    [ValueError] it raises. *)
Variable location_args : Type.
Variable Location_init :
  number_arg → string → time_arg → location_args → list error + Location.t.

(** The value of [self.time]. *)
Definition init_time (time : time_arg) (today : datetime) : time_arg :=
  if truth time then time else PyDatetime today.

(** The list [errors] at the end of the constructor. *)
Definition init_errors (table : list t) (number : number_arg)
    (args : location_args) (time : time_arg) (type : string)
    (today : datetime) : list error :=
  let errors := [] in
  let errors :=
    match number with
    | NotInt => errors ++ [("number", "Drop point number is not a number.")]
    | IntLike n =>
        let errors :=
          if n <? 1
          then errors ++ [("number", "Drop point number is not positive.")]
          else errors in
        if bool_decide (is_Some (query_get table n))
        then errors ++ [("number", "That drop point already exists.")]
        else errors
    end in
  let errors :=
    if truth time && negb (isinstance_datetime time)
    then errors ++ [("DropPoint", "Creation time not a datetime object.")]
    else errors in
  let errors :=
    match time with
    | PyDatetime d =>
        if today <? d
        then errors ++ [("DropPoint", "Creation time in the future.")]
        else errors
    | _ => errors
    end in
  match Location_init number type (init_time time today) args with
  | inl e => errors ++ e
  | inr _ => errors
  end.

(** [DropPoint(number, ..., time, type)]: the errors of the [ValueError],
    or the new object, which is then added to the session. Without errors
    [number] is an integer and [self.time] a [datetime]; the last case
    does not arise. *)
Definition init (table : list t) (number : number_arg)
    (args : location_args) (time : time_arg) (type : string)
    (today : datetime) : list error + t :=
  match init_errors table number args time type today with
  | (_ :: _) as errors => inl errors
  | [] =>
      match number, init_time time today with
      | IntLike n, PyDatetime d =>
          let locations :=
            match Location_init number type (init_time time today) args with
            | inr l => [l]
            | inl _ => []
            end in
          inr (mk n d None locations [] [] type)
      | _, _ => inl []
      end
  end.

(** The table after the constructor returned: [db.session.add(self)]. *)
Definition table_after (table : list t) (r : list error + t) : list t :=
  match r with
  | inr self => table ++ [self]
  | inl _ => table
  end.
End Init.

(** The dict built by [get_dp_info]. *)
Record info : Type := mk_info {
  info_number : Z;
  info_type : string;
  info_description : string;
  info_reports_total : nat;
  info_reports_new : nat;
  info_priority : Qc;
  info_priority_factor : Qc;
  info_base_time : string;
  info_last_state : string;
  info_removed : bool;
  info_lat : Qc;
  info_lng : Qc;
  info_level : Z
}.

Section Info.
Variable Report_states : list string.
Variable Visit_actions : list string.
Variable get_weight : Report.t → Qc.
Variable config : gmap string Qc.
(** [t.strftime("%s")]. *)
Variable strftime_s : datetime → string.

(** An attribute of the current location; of [None] it raises. *)
Definition current_location_attr {A} (self : t) (f : Location.t → A)
  : result A :=
  match get_current_location self with
  | Some l => Ok (f l)
  | None => Raise AttributeError
  end.

Definition get_dp_info (table : list t) (number : Z) (today : datetime)
  : result (option info) :=
  match get table number with
  | Some dp =>
      description ← current_location_attr dp Location.description;
      let reports_total := get_total_report_count dp in
      let reports_new := get_new_report_count dp in
      priority ← get_priority get_weight config dp today;
      priority_factor ← get_priority_factor get_weight config dp;
      let base_time := strftime_s (get_priority_base_time dp) in
      last_state ← get_last_state Report_states Visit_actions dp;
      let removed := bool_decide (is_Some (removed dp)) in
      lat ← current_location_attr dp Location.lat;
      lng ← current_location_attr dp Location.lng;
      level ← current_location_attr dp Location.level;
      Ok (Some (mk_info (DropPoint.number dp) (type dp) description
                  reports_total reports_new priority priority_factor
                  base_time last_state removed lat lng level))
  | None => Ok None
  end.
End Info.

End DropPoint.

(** ** Aggregate statistics *)

Module Statistics.

(** The objects that attribute access on a drop point can yield, and that
    can therefore become keys of the dictionary of counts. *)
Inductive pyval : Type :=
| VNone
| VInt (n : Z)
| VStr (s : string)
| VDatetime (d : datetime)
| VObject (name : string).

Global Instance pyval_eq_dec : EqDecision pyval.
Proof. solve_decision. Defined.

Definition pyval_code (v : pyval) : unit + (Z + (string + (Z + string))) :=
  match v with
  | VNone => inl ()
  | VInt n => inr (inl n)
  | VStr s => inr (inr (inl s))
  | VDatetime d => inr (inr (inr (inl d)))
  | VObject s => inr (inr (inr (inr s)))
  end.

Definition pyval_decode (c : unit + (Z + (string + (Z + string)))) : pyval :=
  match c with
  | inl _ => VNone
  | inr (inl n) => VInt n
  | inr (inr (inl s)) => VStr s
  | inr (inr (inr (inl d))) => VDatetime d
  | inr (inr (inr (inr s))) => VObject s
  end.

Global Instance pyval_countable : Countable pyval.
Proof.
  apply (inj_countable' pyval_code pyval_decode). by intros [].
Defined.

(** The columns of the class [DropPoint]. *)
Definition columns (dp : DropPoint.t) : list (string * pyval) :=
  [ ("number", VInt (DropPoint.number dp));
    ("time", VDatetime (DropPoint.time dp));
    ("removed", from_option VDatetime VNone (DropPoint.removed dp));
    ("type", VStr (DropPoint.type dp)) ].

(** Its relationships and methods, and [query] and [metadata], which come
    with the base class. *)
Definition members : list string :=
  [ "locations"; "reports"; "visits";
    "__init__"; "remove"; "report"; "visit"; "get_typename";
    "get_current_location"; "get_total_report_count";
    "get_new_report_count"; "get_last_state"; "get_last_report";
    "get_last_visit"; "get_new_reports"; "get_history";
    "get_visit_interval"; "get_priority_factor";
    "get_priority_base_time"; "get_priority"; "get"; "get_dp_info";
    "get_dp_json"; "get_dps_json"; "get_next_free_number"; "__repr__";
    "query"; "metadata" ].

Fixpoint assoc (name : string) (l : list (string * pyval)) : option pyval :=
  match l with
  | [] => None
  | (k, v) :: l' => if String.eqb name k then Some v else assoc name l'
  end.

(** [dp.name]. *)
Definition getattr (dp : DropPoint.t) (name : string) : result pyval :=
  match assoc name (columns dp) with
  | Some v => Ok v
  | None =>
      if existsb (String.eqb name) members then Ok (VObject name)
      else Raise AttributeError
  end.

(** The body of the loop over the drop points; the dictionary is updated
    in place, so it is returned also when the body raises. *)
Definition tally (ret : gmap pyval Z) (dp : DropPoint.t)
  : gmap pyval Z * result unit :=
  if bool_decide (is_Some (DropPoint.removed dp)) then (ret, Ok ())
  else match getattr dp "last_state" with
       | Ok s =>
           let n := match ret !! s with
                    | Some n => n + 1
                    | None => 1
                    end in
           (<[s := n]> ret, Ok ())
       | Raise e => (ret, Raise e)
       end.

Fixpoint tally_all (ret : gmap pyval Z) (dps : list DropPoint.t)
  : gmap pyval Z * result unit :=
  match dps with
  | [] => (ret, Ok ())
  | dp :: rest =>
      match tally ret dp with
      | (ret, Ok _) => tally_all ret rest
      | (ret, Raise e) => (ret, Raise e)
      end
  end.

Section ByState.
Variable Report_states : list string.

Definition zero_counts : gmap pyval Z :=
  foldl (λ ret state, <[VStr state := 0]> ret) ∅ Report_states.

(** [query_all] is the outcome of [DropPoint.query.all()], which is
    inside the [try]; the bare [except] discards any exception. *)
Definition drop_points_by_state (query_all : result (list DropPoint.t))
  : gmap pyval Z :=
  let ret := zero_counts in
  match query_all with
  | Ok dps => (tally_all ret dps).1
  | Raise _ => ret
  end.
End ByState.

(** *** Counts *)

(** The outcome of a query is its rows, or the exception it raises; every
    property below catches any exception. *)
Definition count_or_zero {A} (query : result (list A)) : Z :=
  match query with
  | Ok rows => Z.of_nat (length rows)
  | Raise _ => 0
  end.

(** [query.filter(p)]. *)
Definition query_filter {A} (P : A → Prop) `{!∀ x, Decision (P x)}
    (query : result (list A)) : result (list A) :=
  rows ← query; Ok (filter P rows).

Definition drop_point_count (query : result (list DropPoint.t)) : Z :=
  count_or_zero (query_filter (λ dp, DropPoint.removed dp = None) query).

Definition report_count (query : result (list Report.t)) : Z :=
  count_or_zero query.

Definition visit_count (query : result (list Visit.t)) : Z :=
  count_or_zero query.

Definition reports_by_state (Report_states : list string)
    (query : result (list Report.t)) : gmap string Z :=
  foldl (λ ret state,
           <[state := count_or_zero
                        (query_filter (λ r, Report.state r = state) query)]>
             ret)
        ∅ Report_states.

Definition visits_by_action (Visit_actions : list string)
    (query : result (list Visit.t)) : gmap string Z :=
  foldl (λ ret action,
           <[action := count_or_zero
                         (query_filter (λ v, Visit.action v = action) query)]>
             ret)
        ∅ Visit_actions.

End Statistics.

(** * The visit priority in Python's arithmetic

    [get_visit_interval], [get_priority_factor] and [get_priority] once
    more, on the numbers of the source: integers and binary64 floats,
    every operation rounding and raising as Python's does. *)

Module Priority.
Section Engine.
(** [report.get_weight()]. *)
Variable get_weight : Report.t → Py.num.
(** [c3bottles.config]. *)
Variable config : gmap string Py.num.

(** [dict.get(key, default)] on the configuration. *)
Definition config_get (key : string) (dflt : Py.num) : Py.num :=
  default dflt (config !! key).

Definition get_visit_interval : result Py.num :=
  Py.mul (Py.Int 60) (config_get "BASE_VISIT_INTERVAL" (Py.Int 120)).

(** One turn of the loop of [get_priority_factor], on [(priority, i)]:
    [priority += report.get_weight() / 2**i; i += 1]. *)
Definition add_report (acc : result (Py.num * nat)) (report : Report.t)
  : result (Py.num * nat) :=
  '(priority, i) ← acc;
  term ← Py.truediv (get_weight report) (Py.Int (2 ^ Z.of_nat i));
  priority ← Py.add priority term;
  Ok (priority, S i).

(** The literal [1.0]. *)
Definition one : Binary64.float := Binary64.Finite (Q2Qc 1).

Definition get_priority_factor (self : DropPoint.t) : result Py.num :=
  if bool_decide (is_Some (DropPoint.removed self)) then Ok (Py.Int 0)
  else
    let new_reports := DropPoint.get_new_reports self in
    let priority := config_get "DEFAULT_VISIT_PRIORITY" (Py.Int 1) in
    '(priority, _) ← foldl add_report (Ok (priority, 0%nat)) new_reports;
    interval ← get_visit_interval;
    seconds ← Py.mul (Py.Float one) interval;
    Py.truediv priority seconds.

(** [timedelta.total_seconds()]: the microseconds divided by [10**6]. *)
Definition total_seconds (delta : Z) : result Py.num :=
  Py.truediv (Py.Int delta) (Py.Int 1000000).

Definition get_priority (self : DropPoint.t) (today : datetime)
  : result Py.num :=
  factor ← get_priority_factor self;
  seconds ← total_seconds (today - DropPoint.get_priority_base_time self);
  priority ← Py.mul factor seconds;
  Py.round2 priority.
End Engine.
End Priority.

(** * Notions used in the statements *)

(** [d] is a binary number of at most 53 digits whose last digit is not
    below [2 ^ -1074]. *)
Definition representable (d : Q) : Prop :=
  ∃ m e : Z, (d == inject_Z m * 2 ^ e)%Q ∧ Z.abs m < 2 ^ 53 ∧ -1074 ≤ e.

(** [d] is such a number and none of them is nearer to [x]. *)
Definition nearest (x d : Q) : Prop :=
  representable d ∧
  ∀ d', representable d' → (Qabs (x - d) <= Qabs (x - d'))%Q.

(** The float [a] is a zero or a finite number, and no representable
    number is nearer to [x] than the number it stands for. *)
Definition approximates (x : Q) (a : Binary64.float) : Prop :=
  match a with
  | Binary64.Zero _ => nearest x 0
  | Binary64.Finite d => nearest x d
  | _ => False
  end.

(** The float [a] is [0.0], or finite and between [2 ^ lo] and
    [2 ^ hi]. *)
Definition ranged (lo hi : Z) (a : Binary64.float) : Prop :=
  a = Binary64.Zero false ∨
  ∃ z : Qc, a = Binary64.Finite z ∧ (2 ^ lo <= z ∧ z <= 2 ^ hi)%Q.

(** A configured number of ordinary size: a positive integer up to
    [2 ^ 400], or a finite float between [2 ^ -400] and [2 ^ 400].  And
    the negative of such a number. *)
Definition ordinary (a : Py.num) : Prop :=
  match a with
  | Py.Int n => 0 < n ≤ 2 ^ 400
  | Py.Float (Binary64.Finite x) => (2 ^ (-400) <= x ∧ x <= 2 ^ 400)%Q
  | Py.Float _ => False
  end.



(** The greatest of a list of times. *)
Definition latest (times : list datetime) : option datetime :=
  foldr (λ t acc, Some (from_option (Z.max t) t acc)) None times.

(** The time of the most recent visit of a drop point, if it has visits. *)
Definition last_visit_time (self : DropPoint.t) : option datetime :=
  latest (Visit.time <$> DropPoint.visits self).

(** [R] is a most recent report of the drop point: one of its reports, and
    none of them is later.  Likewise for a visit. *)
Definition is_last_report (self : DropPoint.t) (R : Report.t) : Prop :=
  R ∈ DropPoint.reports self ∧
  ∀ r, r ∈ DropPoint.reports self → Report.time r ≤ Report.time R.

Definition is_last_visit (self : DropPoint.t) (V : Visit.t) : Prop :=
  V ∈ DropPoint.visits self ∧
  ∀ v, v ∈ DropPoint.visits self → Visit.time v ≤ Visit.time V.

(** The reports that count: those after the last visit, or all. *)
Definition reports_since_last_visit (self : DropPoint.t) : list Report.t :=
  match last_visit_time self with
  | Some t => filter (λ r, t < Report.time r) (DropPoint.reports self)
  | None => DropPoint.reports self
  end.

(** The time from which the priority grows. *)
Definition base_time (self : DropPoint.t) : datetime :=
  default (DropPoint.time self) (last_visit_time self).

Section Configuration.
Variable get_weight : Report.t → Qc.
Variable config : gmap string Qc.

(** The configured base priority [B] and the visit interval in seconds. *)
Definition base_priority : Qc :=
  default (num 1) (config !! "DEFAULT_VISIT_PRIORITY").
Definition interval_minutes : Qc :=
  default (num 120) (config !! "BASE_VISIT_INTERVAL").
Definition visit_interval_seconds : Qc := (num 60 * interval_minutes)%Qc.

(** [Σ_i weight(l[i]) / 2^i], the sum over the positions of the list. *)
Definition decayed_weight (l : list Report.t) : Qc :=
  Qc_sum (imap (λ i r, get_weight r / num 2 ^ i)%Qc l).
End Configuration.

(** The same quantities in Python's arithmetic: every operation is the
    one of Python's numbers, so the formula has a value or raises. *)
Module Formula.
Section Formula.
Variable get_weight : Report.t → Py.num.
Variable config : gmap string Py.num.

Definition B : Py.num :=
  default (Py.Int 1) (config !! "DEFAULT_VISIT_PRIORITY").
Definition interval_minutes : Py.num :=
  default (Py.Int 120) (config !! "BASE_VISIT_INTERVAL").

(** [60] times the interval in minutes, as a float. *)
Definition visit_interval_seconds : result Py.num :=
  s ← Py.mul (Py.Int 60) interval_minutes;
  Py.mul (Py.Float Priority.one) s.

(** [B + Σ_{i<n} weight(newReports[i]) / 2^i], the terms added to [B] one
    after the other from [i = 0] on. *)
Fixpoint numerator (newReports : list Report.t) (n : nat) : result Py.num :=
  match n with
  | O => Ok B
  | S i =>
      sum ← numerator newReports i;
      match newReports !! i with
      | Some r =>
          term ← Py.truediv (get_weight r) (Py.Int (2 ^ Z.of_nat i));
          Py.add sum term
      | None => Ok sum
      end
  end.

Definition factor (newReports : list Report.t) : result Py.num :=
  n ← numerator newReports (length newReports);
  s ← visit_interval_seconds;
  Py.truediv n s.

(** [now - base_time] in seconds. *)
Definition elapsed_seconds (self : DropPoint.t) (now : datetime)
  : result Py.num :=
  Py.truediv (Py.Int (now - base_time self)) (Py.Int 1000000).

Definition product (newReports : list Report.t) (self : DropPoint.t)
    (now : datetime) : result Py.num :=
  f ← factor newReports;
  t ← elapsed_seconds self now;
  Py.mul f t.

Definition score (newReports : list Report.t) (self : DropPoint.t)
    (now : datetime) : result Py.num :=
  p ← product newReports self now;
  Py.round2 p.
End Formula.
End Formula.

Definition visit_event (v : Visit.t) : DropPoint.event :=
  DropPoint.mk_event (Visit.time v) (DropPoint.visit v).
Definition report_event (r : Report.t) : DropPoint.event :=
  DropPoint.mk_event (Report.time r) (DropPoint.report r).
Definition location_event (l : Location.t) : DropPoint.event :=
  DropPoint.mk_event (Location.time l) (DropPoint.location l).
Definition creation_event (self : DropPoint.t) : DropPoint.event :=
  DropPoint.mk_event (DropPoint.time self) (DropPoint.drop_point self).
Definition removal_event (d : datetime) : DropPoint.event :=
  DropPoint.mk_event d (DropPoint.removed_flag true).

(** One event for each visit, report and location, each in table order,
    the creation, and the removal if there is one. *)
Definition expected_events (self : DropPoint.t) : list DropPoint.event :=
  (visit_event <$> DropPoint.visit_rows self) ++
  (report_event <$> DropPoint.report_rows self) ++
  (location_event <$> DropPoint.location_rows self) ++
  [creation_event self] ++
  from_option (λ d, [removal_event d]) [] (DropPoint.removed self).

(** The errors of the constructor by origin: the number, the time, the
    location. *)
Definition number_errors (table : list DropPoint.t)
    (number : DropPoint.number_arg) : list DropPoint.error :=
  match number with
  | DropPoint.NotInt => [("number", "Drop point number is not a number.")]
  | DropPoint.IntLike n =>
      (if n <? 1 then [("number", "Drop point number is not positive.")]
       else []) ++
      (if bool_decide (is_Some (DropPoint.query_get table n))
       then [("number", "That drop point already exists.")] else [])
  end.

Definition time_errors (time : DropPoint.time_arg) (today : datetime)
  : list DropPoint.error :=
  match time with
  | DropPoint.PyOther true =>
      [("DropPoint", "Creation time not a datetime object.")]
  | DropPoint.PyDatetime d =>
      if today <? d then [("DropPoint", "Creation time in the future.")]
      else []
  | _ => []
  end.

(** The numbers of a table are positive and no two rows share one. *)
Definition numbers_ok (table : list DropPoint.t) : Prop :=
  (∀ dp, dp ∈ table → 1 ≤ DropPoint.number dp) ∧
  NoDup (DropPoint.number <$> table).

(** The sum of a list of integers. *)
Definition Z_sum (l : list Z) : Z := foldr Z.add 0 l.

(** The number of rows of a given kind. *)
Definition count_where {A} (P : A → Prop) `{!∀ x, Decision (P x)}
    (rows : list A) : Z :=
  Z.of_nat (length (filter P rows)).

(** * Sample data

    Sample values for the parameters, and drop points on which the
    statements below are exercised. *)

Definition sample_states : list string :=
  [ "DEFAULT"; "NEW"; "NO_CRATES"; "SOME_BOTTLES"; "REASONABLY_FULL";
    "FULL"; "OVERFLOW"; "EMPTY" ].

Definition sample_actions : list string :=
  [ "EMPTIED"; "ADDED_CRATE"; "REMOVED_CRATE"; "RELOCATED"; "NO_ACTION" ].

(** Every report weighs 4. *)
Definition weight_four : Report.t → Qc := λ _, num 4.

Definition default_config : gmap string Qc := ∅.
Definition negative_interval_config : gmap string Qc :=
  {[ "BASE_VISIT_INTERVAL" := num (-120) ]}.
Definition zero_interval_config : gmap string Qc :=
  {[ "BASE_VISIT_INTERVAL" := num 0 ]}.

(** The same for the priority in Python's arithmetic.  [double n d] is
    the float [n / d]; every report weighs [4.0], or the integer [4]. *)
Definition double (n : Z) (d : positive) : Binary64.float :=
  Binary64.Finite (Q2Qc (n # d)).

Definition py_weight_four : Report.t → Py.num := λ _, Py.Float (double 4 1).
Definition py_weight_int_four : Report.t → Py.num := λ _, Py.Int 4.

Definition py_default_config : gmap string Py.num := ∅.
Definition py_negative_interval_config : gmap string Py.num :=
  {[ "BASE_VISIT_INTERVAL" := Py.Int (-120) ]}.
Definition py_zero_interval_config : gmap string Py.num :=
  {[ "BASE_VISIT_INTERVAL" := Py.Int 0 ]}.
(** A base priority of [10 ** 400], and one of [5e-324]. *)
Definition py_huge_priority_config : gmap string Py.num :=
  {[ "DEFAULT_VISIT_PRIORITY" := Py.Int (10 ^ 400) ]}.
Definition py_tiny_priority_config : gmap string Py.num :=
  {[ "DEFAULT_VISIT_PRIORITY" := Py.Float (double 1 (2 ^ 1074)) ]}.

Definition seconds (n : Z) : datetime := n * 1000000.

Definition somewhere (t : datetime) : Location.t :=
  Location.mk t "hall" (num 0) (num 0) 0.

(** Created at 0, never reported, never visited. *)
Definition untouched : DropPoint.t :=
  DropPoint.mk 1 0 None [somewhere 0] [] [] "bottle".

(** Created at 0, one report after 1000 seconds, no visit. *)
Definition reported_once : DropPoint.t :=
  DropPoint.mk 2 0 None [somewhere 0]
    [Report.mk (seconds 1000) "FULL"] [] "bottle".

(** A report at 10 s, then two visits, the first of which emptied it. *)
Definition emptied_later : DropPoint.t :=
  DropPoint.mk 3 0 None [somewhere 0]
    [Report.mk (seconds 10) "OVERFLOW"]
    [Visit.mk (seconds 20) "EMPTIED"; Visit.mk (seconds 30) "ADDED_CRATE"]
    "bottle".

(** A report and an emptying visit at the same time. *)
Definition same_time : DropPoint.t :=
  DropPoint.mk 4 0 None [somewhere 0]
    [Report.mk (seconds 30) "FULL"] [Visit.mk (seconds 30) "EMPTIED"]
    "bottle".

(** Removed at 50 s, with a report on record. *)
Definition gone : DropPoint.t :=
  DropPoint.mk 5 0 (Some (seconds 50)) [somewhere 0]
    [Report.mk (seconds 10) "OVERFLOW"] [] "bottle".

(** Removed at 50 s, never reported, never visited. *)
Definition gone_unreported : DropPoint.t :=
  DropPoint.mk 14 0 (Some (seconds 50)) [somewhere 0] [] [] "bottle".

(** Created at 100 s. *)
Definition created_late : DropPoint.t :=
  DropPoint.mk 6 (seconds 100) None [somewhere (seconds 100)] [] [] "bottle".

(** A second location entered with a time of 100 s. *)
Definition relocated : DropPoint.t :=
  DropPoint.mk 7 0 None [somewhere (seconds 5); somewhere (seconds 100)]
    [] [] "bottle".

(** Visited twice, never reported; the first visit emptied it. *)
Definition visited_only : DropPoint.t :=
  DropPoint.mk 8 0 None [somewhere 0] []
    [Visit.mk (seconds 20) "EMPTIED"; Visit.mk (seconds 30) "ADDED_CRATE"]
    "bottle".

(** Rows entered out of order: the newer report is the second row, the
    newer visit, which emptied the drop point, is the second row. *)
Definition emptied_after_reports : DropPoint.t :=
  DropPoint.mk 10 0 None [somewhere 0]
    [Report.mk (seconds 10) "FULL"; Report.mk (seconds 50) "OVERFLOW"]
    [Visit.mk (seconds 5) "ADDED_CRATE"; Visit.mk (seconds 60) "EMPTIED"]
    "bottle".

(** The same reports; emptied before both of them, a crate added after
    both. *)
Definition crate_added_after_reports : DropPoint.t :=
  DropPoint.mk 11 0 None [somewhere 0]
    [Report.mk (seconds 10) "FULL"; Report.mk (seconds 50) "OVERFLOW"]
    [Visit.mk (seconds 60) "ADDED_CRATE"; Visit.mk (seconds 5) "EMPTIED"]
    "bottle".

(** The same reports; both visits lie between them. *)
Definition reported_after_visits : DropPoint.t :=
  DropPoint.mk 12 0 None [somewhere 0]
    [Report.mk (seconds 10) "FULL"; Report.mk (seconds 50) "OVERFLOW"]
    [Visit.mk (seconds 20) "EMPTIED"; Visit.mk (seconds 30) "ADDED_CRATE"]
    "bottle".

(** 1025 reports, never visited. *)
Definition flooded : DropPoint.t :=
  DropPoint.mk 13 0 None [somewhere 0]
    (replicate 1025 (Report.mk (seconds 10) "FULL")) [] "bottle".

(** Without any location. *)
Definition nowhere : DropPoint.t :=
  DropPoint.mk 9 0 None [] [] [] "bottle".

Definition sample_table : list DropPoint.t :=
  [untouched; emptied_later; gone].

(** A location constructor that takes a description and accepts every
    [datetime]. *)
Definition sample_Location_init (number : DropPoint.number_arg)
    (type : string) (time : DropPoint.time_arg) (description : string)
  : list DropPoint.error + Location.t :=
  match time with
  | DropPoint.PyDatetime d => inr (Location.mk d description (num 0) (num 0) 0)
  | _ => inl [("Location", "Start time not a datetime object.")]
  end.

(** Whole seconds in decimal. *)
Definition sample_strftime (t : datetime) : string := pretty (t / 1000000).

Definition sample_reports : list Report.t :=
  [ Report.mk (seconds 10) "FULL"; Report.mk (seconds 20) "EMPTY";
    Report.mk (seconds 30) "FULL" ].

(** * Properties *)

(** ** Stable ordering *)

Section OrderingFacts.
Context {A : Type} (before : A → A → bool).

Lemma insert_by_Permutation x l : insert_by before x l ≡ₚ x :: l.
Proof.
  induction l as [|y l IH]; simpl; [done|].
  destruct (before x y); [done|].
  rewrite IH. apply perm_swap.
Qed.

Lemma sort_by_Permutation l : sort_by before l ≡ₚ l.
Proof.
  induction l as [|x l IH]; simpl; [done|].
  unfold sort_by in IH. by rewrite insert_by_Permutation, IH.
Qed.

Lemma sort_by_elem_of x l : x ∈ sort_by before l ↔ x ∈ l.
Proof. by rewrite sort_by_Permutation. Qed.

Lemma sort_by_length l : length (sort_by before l) = length l.
Proof. by rewrite sort_by_Permutation. Qed.

Lemma sort_by_nil_inv l : sort_by before l = [] → l = [].
Proof.
  intros E. apply Permutation_nil_r. rewrite <- E.
  symmetry. apply sort_by_Permutation.
Qed.

Hypothesis before_total : ∀ x y, before x y = false → before y x = true.

Lemma insert_by_HdRel z x l :
  before z x = true → HdRel (λ a b, before a b = true) z l →
  HdRel (λ a b, before a b = true) z (insert_by before x l).
Proof.
  intros Hzx Hz. destruct l as [|y l]; simpl; [by constructor|].
  destruct (before x y); constructor; [done|]. by inv Hz.
Qed.

Lemma insert_by_Sorted x l :
  Sorted (λ a b, before a b = true) l →
  Sorted (λ a b, before a b = true) (insert_by before x l).
Proof.
  induction 1 as [|y l Hl IH Hy]; simpl; [by repeat constructor|].
  destruct (before x y) eqn:E.
  - by repeat constructor.
  - constructor; [done|]. apply insert_by_HdRel; auto.
Qed.

Lemma sort_by_Sorted l : Sorted (λ a b, before a b = true) (sort_by before l).
Proof.
  induction l as [|x l IH]; simpl; [constructor|].
  by apply insert_by_Sorted.
Qed.

(** Stability: a class of elements that [before] does not separate keeps
    its order. *)
Lemma insert_by_filter (P : A → Prop) `{!∀ x, Decision (P x)} x l :
  (∀ a b, P a → P b → before a b = true) →
  filter P (insert_by before x l) = filter P (x :: l).
Proof.
  intros HP. induction l as [|y l IH]; [done|].
  cbn [insert_by]. destruct (before x y) eqn:E; [done|].
  rewrite filter_cons, IH, !filter_cons.
  destruct (decide (P y)) as [Hy|]; [|done].
  destruct (decide (P x)) as [Hx|]; [|done].
  rewrite (HP x y Hx Hy) in E. done.
Qed.

Lemma sort_by_filter (P : A → Prop) `{!∀ x, Decision (P x)} l :
  (∀ a b, P a → P b → before a b = true) →
  filter P (sort_by before l) = filter P l.
Proof.
  intros HP. induction l as [|x l IH]; [done|].
  change (sort_by before (x :: l)) with (insert_by before x (sort_by before l)).
  rewrite insert_by_filter by done.
  by rewrite !filter_cons, IH.
Qed.
End OrderingFacts.

Lemma Sorted_weaken {A} (R1 R2 : relation A) l :
  (∀ a b, R1 a b → R2 a b) → Sorted R1 l → Sorted R2 l.
Proof.
  intros HR. induction 1 as [|x l Hl IH Hx]; constructor; [done|].
  destruct Hx; constructor; auto.
Qed.

Section KeyOrdering.
Context {A : Type} (key : A → Z).

Lemma order_by_desc_Permutation l : order_by_desc key l ≡ₚ l.
Proof. apply sort_by_Permutation. Qed.

Lemma order_by_asc_Permutation l : order_by_asc key l ≡ₚ l.
Proof. apply sort_by_Permutation. Qed.

Lemma order_by_desc_Sorted l :
  StronglySorted (λ a b, key b ≤ key a) (order_by_desc key l).
Proof.
  apply Sorted_StronglySorted; [intros x y z; lia|].
  eapply Sorted_weaken; [|apply sort_by_Sorted].
  - intros a b E. simpl in E. lia.
  - intros x y E. simpl in *. lia.
Qed.

Lemma order_by_asc_Sorted l :
  StronglySorted (λ a b, key a ≤ key b) (order_by_asc key l).
Proof.
  apply Sorted_StronglySorted; [intros x y z; lia|].
  eapply Sorted_weaken; [|apply sort_by_Sorted].
  - intros a b E. simpl in E. lia.
  - intros x y E. simpl in *. lia.
Qed.

Lemma order_by_desc_stable k l :
  filter (λ x, key x = k) (order_by_desc key l) = filter (λ x, key x = k) l.
Proof. apply sort_by_filter. intros a b -> ->. lia. Qed.

(** [query.order_by(key.desc()).first()] is a row of greatest key. *)
Lemma head_order_by_desc_Some l x :
  head (order_by_desc key l) = Some x → x ∈ l ∧ ∀ y, y ∈ l → key y ≤ key x.
Proof.
  intros E. pose proof (order_by_desc_Sorted l) as HS.
  pose proof (order_by_desc_Permutation l) as HP.
  destruct (order_by_desc key l) as [|x' s]; simplify_eq/=.
  split; [rewrite <- HP; left|].
  intros y Hy. rewrite <- HP in Hy.
  apply StronglySorted_inv in HS as [_ HF].
  apply elem_of_cons in Hy as [->|Hy]; [lia|].
  by eapply Forall_forall in HF.
Qed.

Lemma head_order_by_desc_None l : head (order_by_desc key l) = None → l = [].
Proof.
  intros E. apply (sort_by_nil_inv (λ x y, key y <=? key x)).
  fold (order_by_desc key l). by destruct (order_by_desc key l).
Qed.

Lemma last_order_by_asc_Some l x :
  last (order_by_asc key l) = Some x → x ∈ l ∧ ∀ y, y ∈ l → key y ≤ key x.
Proof.
  intros E. pose proof (order_by_asc_Sorted l) as HS.
  pose proof (order_by_asc_Permutation l) as HP.
  apply last_Some in E as [s E]. rewrite E in HS, HP.
  split; [rewrite <- HP; set_solver|].
  intros y Hy. rewrite <- HP in Hy.
  apply elem_of_app in Hy as [Hy|Hy];
    [|apply list_elem_of_singleton in Hy; subst; lia].
  clear HP E. induction s as [|z s IH]; [by apply elem_of_nil in Hy|].
  simpl in HS. apply StronglySorted_inv in HS as [HS HF].
  apply elem_of_cons in Hy as [->|Hy]; [|by apply IH].
  rewrite Forall_app, Forall_singleton in HF. tauto.
Qed.
End KeyOrdering.

(** ** Rounding *)

Section Rounding.
Local Open Scope Q_scope.

Lemma round_half_even_cases (x : Q) :
  let f := Qfloor x in
  (x - inject_Z f < 1 # 2 ∧ round_half_even x = f) ∨
  (1 # 2 < x - inject_Z f ∧ round_half_even x = (f + 1)%Z) ∨
  (x - inject_Z f == 1 # 2 ∧
   (round_half_even x = f ∨ round_half_even x = (f + 1)%Z)).
Proof.
  intros f. unfold round_half_even. fold f.
  destruct (Qcompare_spec (x - inject_Z f) (1 # 2)) as [E|E|E]; auto.
  right; right. split; [done|]. destruct (Z.even f); auto.
Qed.

Lemma round_half_even_error (x : Q) :
  - (1 # 2) <= inject_Z (round_half_even x) - x <= 1 # 2.
Proof.
  pose proof (Qfloor_le x) as Hlo. pose proof (Qlt_floor x) as Hhi.
  rewrite inject_Z_plus in Hhi.
  destruct (round_half_even_cases x) as [[H ->]|[[H ->]|[H [-> | ->]]]];
    rewrite ?inject_Z_plus; change (inject_Z 1) with 1 in *; split; lra.
Qed.

Lemma round_half_even_proper (x y : Q) :
  x == y → round_half_even x = round_half_even y.
Proof.
  intros E. unfold round_half_even.
  rewrite (Qfloor_comp _ _ E).
  assert (x - inject_Z (Qfloor y) == y - inject_Z (Qfloor y)) as ->
    by (rewrite E; reflexivity).
  done.
Qed.

Lemma round_half_even_mono (x y : Q) :
  x <= y → (round_half_even x ≤ round_half_even y)%Z.
Proof.
  intros Hxy. pose proof (Qfloor_resp_le _ _ Hxy) as Hf.
  destruct (decide (Qfloor x = Qfloor y)) as [E|N].
  - unfold round_half_even. rewrite E.
    set (f := Qfloor y).
    destruct (Qcompare_spec (x - inject_Z f) (1 # 2)) as [Ex|Ex|Ex];
      destruct (Qcompare_spec (y - inject_Z f) (1 # 2)) as [Ey|Ey|Ey];
      try destruct (Z.even f); try lia; exfalso; lra.
  - assert (Qfloor x + 1 ≤ Qfloor y)%Z as Hlt by lia.
    transitivity (Qfloor x + 1)%Z; [|transitivity (Qfloor y)].
    + destruct (round_half_even_cases x)
        as [[_ ->]|[[_ ->]|[_ [-> | ->]]]]; lia.
    + done.
    + destruct (round_half_even_cases y)
        as [[_ ->]|[[_ ->]|[_ [-> | ->]]]]; lia.
Qed.
End Rounding.

(** ** Binary64 rounding *)

Section Binary64Facts.
Import Binary64.
Local Open Scope Q_scope.

Lemma round_half_even_Z (n : Z) : round_half_even (inject_Z n) = n.
Proof.
  unfold round_half_even. rewrite Qfloor_Z.
  destruct (Qcompare_spec (inject_Z n - inject_Z n) (1 # 2)) as [E|E|E];
    [exfalso; lra|done|exfalso; lra].
Qed.

Lemma round_half_even_nearest (x : Q) (n : Z) :
  Qabs (x - inject_Z (round_half_even x)) <= Qabs (x - inject_Z n).
Proof.
  pose proof (round_half_even_error x) as [H1 H2].
  set (r := round_half_even x) in *.
  destruct (decide (n = r)) as [->|N]; [apply Qle_refl|].
  apply Qle_trans with (1 # 2).
  - apply Qabs_Qle_condition. split; lra.
  - destruct (Z_lt_le_dec n r) as [L|L].
    + assert (n + 1 ≤ r)%Z as L' by lia. rewrite Zle_Qle, inject_Z_plus in L'.
      change (inject_Z 1) with 1 in L'.
      apply Qle_trans with (x - inject_Z n); [lra|apply Qle_Qabs].
    + assert (r + 1 ≤ n)%Z as L' by lia. rewrite Zle_Qle, inject_Z_plus in L'.
      change (inject_Z 1) with 1 in L'.
      apply Qle_trans with (- (x - inject_Z n)); [lra|].
      rewrite <- Qabs_opp. apply Qle_Qabs.
Qed.

Lemma Qpow2_pos (z : Z) : 0 < 2 ^ z.
Proof. by apply Qpower_0_lt. Qed.

Lemma Qpow2_nonzero (z : Z) : ¬ 2 ^ z == 0.
Proof. pose proof (Qpow2_pos z). lra. Qed.

Lemma Qpow2_succ (z : Z) : 2 ^ (z + 1) == 2 * 2 ^ z.
Proof. rewrite Qpower_plus by done. change (2 ^ 1) with 2. ring. Qed.

Lemma Qpow2_le (a b : Z) : (a ≤ b)%Z → 2 ^ a <= 2 ^ b.
Proof. intros H. apply Qpower_le_compat_l; [done|lra]. Qed.

Lemma Qpow2_lt (a b : Z) : (a < b)%Z → 2 ^ a < 2 ^ b.
Proof. intros H. apply Qpower_lt_compat_l; [done|lra]. Qed.

Lemma Qpow2_lt_inv (a b : Z) : 2 ^ a < 2 ^ b → (a < b)%Z.
Proof. intros H. apply (Qpower_lt_compat_l_inv 2); [done|lra]. Qed.

Lemma Qpow2_Z (a : Z) : (0 ≤ a)%Z → inject_Z (2 ^ a) == 2 ^ a.
Proof. intros H. by rewrite Zpower_Qpower. Qed.

Lemma Qpow2_split (a b : Z) : 2 ^ a == 2 ^ (a - b) * 2 ^ b.
Proof. rewrite <- Qpower_plus by done. by replace (a - b + b)%Z with a by lia. Qed.

Lemma Q_as_fraction (x : Q) :
  x == inject_Z (Qnum x) / inject_Z (Zpos (Qden x)).
Proof.
  destruct x as [n d]. unfold Qeq, Qdiv, Qmult, Qinv, inject_Z. simpl. lia.
Qed.

Lemma Qlog2_bounds (x : Q) :
  0 < x → 2 ^ Qlog2 x <= x ∧ x < 2 ^ (Qlog2 x + 1).
Proof.
  intros Hx. unfold Qlog2.
  set (n := Qnum x). set (d := Zpos (Qden x)).
  assert (0 < n)%Z as Hn. { unfold Qlt in Hx. simpl in Hx. lia. }
  assert (0 < d)%Z as Hd by done.
  destruct (Z.log2_spec n Hn) as [Hn1 Hn2].
  destruct (Z.log2_spec d Hd) as [Hd1 Hd2].
  pose proof (Z.log2_nonneg n) as Hna. pose proof (Z.log2_nonneg d) as Hda.
  set (a := Z.log2 n) in *. set (b := Z.log2 d) in *.
  assert (x == inject_Z n / inject_Z d) as Ex by apply Q_as_fraction.
  assert (0 < inject_Z d) as Hdq. { rewrite <- (Zlt_Qlt 0). done. }
  assert (x * inject_Z d == inject_Z n) as Exd.
  { rewrite Ex. field. intros E. rewrite E in Hdq. by apply Qlt_irrefl in Hdq. }
  assert (x < 2 ^ (a - b + 1)) as Hup.
  { replace (a - b + 1)%Z with ((a + 1) - b)%Z by lia.
    rewrite Qpower_minus by done.
    apply Qlt_shift_div_l; [apply Qpow2_pos|].
    apply Qle_lt_trans with (x * inject_Z d).
    - apply Qmult_le_l; [done|]. rewrite <- Qpow2_Z by done. by rewrite <- Zle_Qle.
    - rewrite Exd. rewrite <- Qpow2_Z by lia. rewrite <- Zlt_Qlt.
      by replace (a + 1)%Z with (Z.succ a) by lia. }
  assert (2 ^ (a - b - 1) < x) as Hlow.
  { replace (a - b - 1)%Z with (a - (b + 1))%Z by lia.
    rewrite Qpower_minus by done.
    apply Qlt_shift_div_r; [apply Qpow2_pos|].
    apply Qle_lt_trans with (inject_Z n).
    - rewrite <- Qpow2_Z by done. by rewrite <- Zle_Qle.
    - rewrite <- Exd. apply Qmult_lt_l; [done|].
      rewrite <- Qpow2_Z by lia. rewrite <- Zlt_Qlt.
      by replace (b + 1)%Z with (Z.succ b) by lia. }
  destruct (Qle_bool (2 ^ (a - b)) x) eqn:E.
  - apply Qle_bool_iff in E. done.
  - assert (x < 2 ^ (a - b)) as Hlt.
    { apply Qnot_le_lt. intros H. apply Qle_bool_iff in H. congruence. }
    split; [by apply Qlt_le_weak|].
    by replace (a - b - 1 + 1)%Z with (a - b)%Z by lia.
Qed.

Lemma Qlog2_unique (x : Q) (l : Z) :
  2 ^ l <= x → x < 2 ^ (l + 1) → Qlog2 x = l.
Proof.
  intros H1 H2.
  assert (0 < x) as Hx. { pose proof (Qpow2_pos l). lra. }
  destruct (Qlog2_bounds x Hx) as [H3 H4].
  assert (l < Qlog2 x + 1)%Z.
  { apply Qpow2_lt_inv. lra. }
  assert (Qlog2 x < l + 1)%Z.
  { apply Qpow2_lt_inv. lra. }
  lia.
Qed.

Lemma Qlog2_proper (x y : Q) : 0 < x → x == y → Qlog2 x = Qlog2 y.
Proof.
  intros Hx E. destruct (Qlog2_bounds x Hx) as [H1 H2].
  symmetry. apply Qlog2_unique; lra.
Qed.

Lemma Qlog2_mono (x y : Q) : 0 < x → x <= y → (Qlog2 x ≤ Qlog2 y)%Z.
Proof.
  intros Hx Hxy.
  destruct (Qlog2_bounds x Hx) as [H1 H2].
  destruct (Qlog2_bounds y) as [H3 H4]; [lra|].
  assert (Qlog2 x < Qlog2 y + 1)%Z; [|lia].
  apply Qpow2_lt_inv. lra.
Qed.

Lemma ulp_exp_proper (x y : Q) : 0 < x → x == y → ulp_exp x = ulp_exp y.
Proof. intros Hx E. unfold ulp_exp. by rewrite (Qlog2_proper x y). Qed.

Lemma ulp_exp_mono (x y : Q) : 0 < x → x <= y → (ulp_exp x ≤ ulp_exp y)%Z.
Proof.
  intros Hx Hxy. unfold ulp_exp. pose proof (Qlog2_mono x y Hx Hxy). lia.
Qed.

(** A multiple of the unit in the last place that bounds [x] also bounds
    its rounding. *)
Lemma RN_pos_ge_multiple (x : Q) (n : Z) :
  inject_Z n * 2 ^ ulp_exp x <= x → inject_Z n * 2 ^ ulp_exp x <= RN_pos x.
Proof.
  intros H. unfold RN_pos. pose proof (Qpow2_pos (ulp_exp x)) as Hg.
  apply Qmult_le_compat_r; [|lra].
  rewrite <- Zle_Qle. rewrite <- (round_half_even_Z n).
  apply round_half_even_mono. by apply Qle_shift_div_l.
Qed.

Lemma RN_pos_le_multiple (x : Q) (n : Z) :
  x <= inject_Z n * 2 ^ ulp_exp x → RN_pos x <= inject_Z n * 2 ^ ulp_exp x.
Proof.
  intros H. unfold RN_pos. pose proof (Qpow2_pos (ulp_exp x)) as Hg.
  apply Qmult_le_compat_r; [|lra].
  rewrite <- Zle_Qle. rewrite <- (round_half_even_Z n).
  apply round_half_even_mono. by apply Qle_shift_div_r.
Qed.

Lemma Qpow2_multiple (k e : Z) :
  (e ≤ k)%Z → 2 ^ k == inject_Z (2 ^ (k - e)) * 2 ^ e.
Proof.
  intros H. rewrite Qpow2_Z by lia. apply Qpow2_split.
Qed.

Lemma RN_pos_ge_pow (x : Q) (k : Z) :
  (ulp_exp x ≤ k)%Z → 2 ^ k <= x → 2 ^ k <= RN_pos x.
Proof.
  intros Hk H. rewrite (Qpow2_multiple k (ulp_exp x)) in * by done.
  by apply RN_pos_ge_multiple.
Qed.

Lemma RN_pos_le_pow (x : Q) (k : Z) :
  (ulp_exp x ≤ k)%Z → x <= 2 ^ k → RN_pos x <= 2 ^ k.
Proof.
  intros Hk H. rewrite (Qpow2_multiple k (ulp_exp x)) in * by done.
  by apply RN_pos_le_multiple.
Qed.

Lemma RN_pos_nonneg (x : Q) : 0 < x → 0 <= RN_pos x.
Proof.
  intros Hx.
  assert (inject_Z 0 * 2 ^ ulp_exp x <= RN_pos x) as H.
  { apply RN_pos_ge_multiple. change (inject_Z 0) with 0. lra. }
  change (inject_Z 0) with 0 in H. lra.
Qed.

Lemma RN_pos_proper (x y : Q) : 0 < x → x == y → RN_pos x == RN_pos y.
Proof.
  intros Hx E. unfold RN_pos. rewrite <- (ulp_exp_proper x y) by done.
  rewrite (round_half_even_proper (x / 2 ^ ulp_exp x) (y / 2 ^ ulp_exp x));
    [reflexivity|].
  apply Qmult_comp; [exact E|reflexivity].
Qed.

Lemma RN_pos_mono (x y : Q) : 0 < x → x <= y → RN_pos x <= RN_pos y.
Proof.
  intros Hx Hxy. pose proof (ulp_exp_mono x y Hx Hxy) as He.
  destruct (decide (ulp_exp x = ulp_exp y)) as [E|N].
  - unfold RN_pos. rewrite E. pose proof (Qpow2_pos (ulp_exp y)) as Hg.
    apply Qmult_le_compat_r; [|lra]. rewrite <- Zle_Qle.
    apply round_half_even_mono. apply Qmult_le_compat_r; [done|].
    apply Qinv_le_0_compat. lra.
  - assert (ulp_exp x < ulp_exp y)%Z as Hlt by lia.
    destruct (Qlog2_bounds x Hx) as [_ Hux].
    destruct (Qlog2_bounds y) as [Hly _]; [lra|].
    unfold ulp_exp in Hlt.
    assert (Qlog2 x + 1 ≤ Qlog2 y)%Z as Hl by lia.
    set (k := Z.max (Qlog2 x + 1) (ulp_exp x)).
    apply Qle_trans with (2 ^ k).
    + apply RN_pos_le_pow; [lia|].
      apply Qle_trans with (2 ^ (Qlog2 x + 1)); [by apply Qlt_le_weak|].
      apply Qpow2_le. lia.
    + apply Qle_trans with (2 ^ Qlog2 y);
        [apply Qpow2_le; unfold k, ulp_exp; lia|].
      apply RN_pos_ge_pow; [unfold ulp_exp; lia|done].
Qed.

Lemma RN_pos_positive (x : Q) : 2 ^ (-1074) <= x → 2 ^ (-1074) <= RN_pos x.
Proof.
  intros Hx. pose proof (Qpow2_pos (-1074)) as Hp.
  apply Qle_trans with (RN_pos (2 ^ (-1074))); [|by apply RN_pos_mono].
  apply RN_pos_ge_pow; [|apply Qle_refl].
  unfold ulp_exp. rewrite (Qlog2_unique _ (-1074)); [lia|apply Qle_refl|].
  by apply Qpow2_lt.
Qed.

Lemma RN_cases (x : Q) :
  (x == 0 ∧ RN x = 0) ∨ (0 < x ∧ RN x = RN_pos x) ∨
  (x < 0 ∧ RN x = - RN_pos (- x)).
Proof.
  unfold RN. destruct (Qcompare_spec x 0); auto.
Qed.

Lemma RN_proper (x y : Q) : x == y → RN x == RN y.
Proof.
  intros E.
  destruct (RN_cases x) as [[H ->]|[[H ->]|[H ->]]],
    (RN_cases y) as [[H' ->]|[[H' ->]|[H' ->]]]; try (exfalso; lra).
  - reflexivity.
  - by apply RN_pos_proper.
  - apply Qopp_comp. apply RN_pos_proper; [lra|]. by apply Qopp_comp.
Qed.

Lemma RN_mono (x y : Q) : x <= y → RN x <= RN y.
Proof.
  intros Hxy.
  destruct (RN_cases x) as [[H ->]|[[H ->]|[H ->]]],
    (RN_cases y) as [[H' ->]|[[H' ->]|[H' ->]]]; try (exfalso; lra).
  - apply Qle_refl.
  - by apply RN_pos_nonneg.
  - by apply RN_pos_mono.
  - pose proof (RN_pos_nonneg (- x)). lra.
  - pose proof (RN_pos_nonneg (- x)). pose proof (RN_pos_nonneg y). lra.
  - pose proof (RN_pos_mono (- y) (- x)). lra.
Qed.


End Binary64Facts.

Section RepresentableFacts.
Import Binary64.
Local Open Scope Q_scope.

Lemma representable_proper (x y : Q) : x == y → representable x → representable y.
Proof. intros E (m & e & H & Hm & He). exists m, e. by rewrite <- E. Qed.

Lemma representable_opp (d : Q) : representable d → representable (- d).
Proof.
  intros (m & e & H & Hm & He). exists (- m)%Z, e.
  split; [|split; [lia|done]]. rewrite inject_Z_opp, H. ring.
Qed.

Lemma representable_0 : representable 0.
Proof. exists 0%Z, 0%Z. split; [reflexivity|]. split; [done|lia]. Qed.

Lemma RN_pos_mantissa (x : Q) :
  0 < x → (0 ≤ round_half_even (x / 2 ^ ulp_exp x) ≤ 2 ^ 53)%Z.
Proof.
  intros Hx. pose proof (Qpow2_pos (ulp_exp x)) as Hg. split.
  - rewrite <- (round_half_even_Z 0). apply round_half_even_mono.
    apply Qle_shift_div_l; [done|]. change (inject_Z 0) with 0. lra.
  - rewrite <- (round_half_even_Z (2 ^ 53)). apply round_half_even_mono.
    apply Qle_shift_div_r; [done|].
    destruct (Qlog2_bounds x Hx) as [_ Hu].
    rewrite Qpow2_Z by lia. rewrite <- Qpower_plus by done.
    apply Qle_trans with (2 ^ (Qlog2 x + 1)); [by apply Qlt_le_weak|].
    apply Qpow2_le. unfold ulp_exp. lia.
Qed.

Lemma RN_pos_representable (x : Q) : 0 < x → representable (RN_pos x).
Proof.
  intros Hx. pose proof (RN_pos_mantissa x Hx) as [H0 H1]. unfold RN_pos.
  set (m := round_half_even (x / 2 ^ ulp_exp x)) in *.
  destruct (decide (m = 2 ^ 53)%Z) as [E|N].
  - exists (2 ^ 52)%Z, (ulp_exp x + 1)%Z.
    split; [|split; [done|unfold ulp_exp; lia]].
    rewrite E, Qpow2_succ. change (2 ^ 53)%Z with (2 * 2 ^ 52)%Z.
    rewrite inject_Z_mult. change (inject_Z 2) with 2. ring.
  - exists m, (ulp_exp x). split; [reflexivity|].
    split; [lia|unfold ulp_exp; lia].
Qed.

Lemma RN_representable (x : Q) : representable (RN x).
Proof.
  destruct (RN_cases x) as [[H ->]|[[H ->]|[H ->]]].
  - apply representable_0.
  - by apply RN_pos_representable.
  - apply representable_opp, RN_pos_representable. lra.
Qed.

Lemma RN_pos_multiple (x : Q) (n : Z) :
  x == inject_Z n * 2 ^ ulp_exp x → RN_pos x == x.
Proof.
  intros E. unfold RN_pos. pose proof (Qpow2_nonzero (ulp_exp x)) as Hg.
  rewrite (round_half_even_proper _ (inject_Z n)).
  - rewrite round_half_even_Z. by symmetry.
  - rewrite E at 1. by field.
Qed.

Lemma RN_pos_idem (d : Q) : 0 < d → representable d → RN_pos d == d.
Proof.
  intros Hd (m & e & E & Hm & He).
  pose proof (Qpow2_pos e) as Hg.
  assert (0 < m)%Z as Hm0.
  { destruct (Z_lt_le_dec 0 m) as [L|L]; [done|exfalso].
    rewrite Zle_Qle in L. change (inject_Z 0) with 0 in L.
    assert (inject_Z m * 2 ^ e <= 0); [|lra].
    rewrite <- (Qmult_0_l (2 ^ e)). apply Qmult_le_compat_r; lra. }
  destruct (Qlog2_bounds d Hd) as [Hl _].
  assert (ulp_exp d ≤ e)%Z as Hle.
  { assert (Qlog2 d < 53 + e)%Z; [|unfold ulp_exp; lia].
    apply Qpow2_lt_inv. apply Qle_lt_trans with d; [done|].
    rewrite E, Qpower_plus by done. apply Qmult_lt_compat_r; [done|].
    rewrite <- Qpow2_Z by lia. rewrite <- Zlt_Qlt. lia. }
  apply (RN_pos_multiple d (m * 2 ^ (e - ulp_exp d))).
  rewrite E at 1. rewrite inject_Z_mult, Qpow2_Z by lia.
  rewrite <- Qmult_assoc. apply Qmult_comp; [reflexivity|].
  apply Qpow2_split.
Qed.

Lemma RN_idem (d : Q) : representable d → RN d == d.
Proof.
  intros Hd. destruct (RN_cases d) as [[H ->]|[[H ->]|[H ->]]].
  - by symmetry.
  - by apply RN_pos_idem.
  - rewrite RN_pos_idem; [ring|lra|by apply representable_opp].
Qed.

Lemma RN_pos_nearest_multiple (x : Q) (n : Z) :
  Qabs (x - RN_pos x) <= Qabs (x - inject_Z n * 2 ^ ulp_exp x).
Proof.
  pose proof (Qpow2_pos (ulp_exp x)) as Hg. unfold RN_pos.
  set (g := 2 ^ ulp_exp x) in *.
  set (m := round_half_even (x / g)).
  assert (∀ k : Z, Qabs (x - inject_Z k * g)
                   == Qabs (x / g - inject_Z k) * g) as Hs.
  { intros k. rewrite <- (Qabs_pos g) at 3 by lra. rewrite <- Qabs_Qmult.
    apply Qabs_wd. field. lra. }
  rewrite !Hs. apply Qmult_le_compat_r; [|lra].
  apply round_half_even_nearest.
Qed.

Lemma RN_pos_error (x : Q) :
  Qabs (x - RN_pos x) <= 2 ^ (ulp_exp x - 1).
Proof.
  pose proof (Qpow2_pos (ulp_exp x)) as Hg.
  pose proof (round_half_even_error (x / 2 ^ ulp_exp x)) as [H1 H2].
  unfold RN_pos.
  set (g := 2 ^ ulp_exp x) in *.
  set (m := round_half_even (x / g)) in *.
  assert (2 ^ (ulp_exp x - 1) == (1 # 2) * g) as ->.
  { unfold g. rewrite Qpower_minus by done. change (2 ^ 1) with 2.
    field. }
  assert (x - inject_Z m * g == (x / g - inject_Z m) * g) as ->
    by (field; lra).
  rewrite Qabs_Qmult, (Qabs_pos g) by lra.
  apply Qmult_le_compat_r; [|lra].
  apply Qabs_Qle_condition. split; lra.
Qed.

Lemma RN_pos_nearest (x d : Q) :
  0 < x → representable d → Qabs (x - RN_pos x) <= Qabs (x - d).
Proof.
  intros Hx (m & e & E & Hm & He).
  destruct (Z_le_gt_dec (ulp_exp x) e) as [L|L].
  - rewrite (Qabs_wd (x - d) (x - inject_Z (m * 2 ^ (e - ulp_exp x))
                                   * 2 ^ ulp_exp x)).
    + apply RN_pos_nearest_multiple.
    + rewrite E, inject_Z_mult, Qpow2_Z by lia.
      rewrite <- Qmult_assoc, <- Qpow2_split. reflexivity.
  - assert (ulp_exp x = Qlog2 x - 52)%Z as Hu by (unfold ulp_exp in *; lia).
    destruct (Qlog2_bounds x Hx) as [Hl _].
    assert (d < 2 ^ Qlog2 x) as Hd.
    { rewrite E. apply Qlt_le_trans with (inject_Z (2 ^ 53) * 2 ^ e).
      - apply Qmult_lt_compat_r; [apply Qpow2_pos|].
        rewrite <- Zlt_Qlt. lia.
      - rewrite Qpow2_Z by lia. rewrite <- Qpower_plus by done.
        apply Qpow2_le. lia. }
    apply Qle_trans with (Qabs (x - 2 ^ Qlog2 x)).
    + rewrite (Qabs_wd (x - 2 ^ Qlog2 x)
                 (x - inject_Z (2 ^ 52) * 2 ^ ulp_exp x)).
      * apply RN_pos_nearest_multiple.
      * rewrite Qpow2_Z by lia. rewrite <- Qpower_plus by done.
        by replace (52 + ulp_exp x)%Z with (Qlog2 x) by lia.
    + rewrite !Qabs_pos by lra. lra.
Qed.

Lemma RN_nearest (x : Q) : nearest x (RN x).
Proof.
  split; [apply RN_representable|]. intros d Hd.
  destruct (RN_cases x) as [[H ->]|[[H ->]|[H ->]]].
  - rewrite (Qabs_wd (x - 0) 0) by lra. apply Qabs_nonneg.
  - by apply RN_pos_nearest.
  - rewrite (Qabs_wd (x - - RN_pos (- x)) (- (- x - RN_pos (- x)))) by ring.
    rewrite (Qabs_wd (x - d) (- (- x - - d))) by ring.
    rewrite !Qabs_opp. apply RN_pos_nearest; [lra|].
    by apply representable_opp.
Qed.

Lemma RN_error (x : Q) : 0 < x → Qabs (x - RN x) <= 2 ^ (ulp_exp x - 1).
Proof.
  intros Hx. destruct (RN_cases x) as [[H ->]|[[H ->]|[H ->]]];
    [exfalso; lra| |exfalso; lra].
  apply RN_pos_error.
Qed.

End RepresentableFacts.

(** ** Rounding to two places, on rationals *)

Lemma py_round2_zero : py_round2 (num 0) = num 0.
Proof. apply Qc_is_canon. reflexivity. Qed.

Lemma py_round2_grid (x : Qc) :
  ∃ k : Z, py_round2 x = (num k / num 100)%Qc.
Proof.
  exists (round_half_even (x * 100)%Q). apply Qc_is_canon.
  unfold py_round2, Qcdiv, Qcmult, Qcinv, num. simpl.
  rewrite !Qred_correct. reflexivity.
Qed.


Lemma py_round2_error (x : Qc) :
  (- (Q2Qc (1 # 200)) ≤ py_round2 x - x ∧ py_round2 x - x ≤ Q2Qc (1 # 200))%Qc.
Proof.
  pose proof (round_half_even_error (x * 100)%Q) as [H1 H2].
  unfold Qcle, Qcminus, Qcplus, Qcopp, py_round2. simpl.
  rewrite !Qred_correct. unfold Qdiv. change (/ 100)%Q with (1 # 100)%Q.
  split; lra.
Qed.

(** ** Indexing *)

Lemma getitem_nonneg {A} (l : list A) (i : nat) (x : A) :
  l !! i = Some x → getitem l (Z.of_nat i) = Ok x.
Proof.
  intros E. pose proof (lookup_lt_Some _ _ _ E) as Hlt.
  unfold getitem. cbv zeta.
  rewrite !(proj2 (Z.ltb_ge (Z.of_nat i) 0)) by lia.
  rewrite (proj2 (Z.leb_gt _ _)) by lia.
  by rewrite Nat2Z.id, E.
Qed.

Lemma getitem_last {A} (l : list A) (x : A) :
  last l = Some x → getitem l (-1) = Ok x.
Proof.
  intros E. rewrite last_lookup in E.
  pose proof (lookup_lt_Some _ _ _ E) as Hlt.
  unfold getitem. cbv zeta. change (-1 <? 0) with true. cbv iota.
  rewrite (proj2 (Z.ltb_ge (-1 + Z.of_nat (length l)) 0)) by lia.
  rewrite (proj2 (Z.leb_gt _ _)) by lia.
  replace (Z.to_nat (-1 + Z.of_nat (length l))) with (pred (length l)) by lia.
  by rewrite E.
Qed.

(** ** The status of a drop point *)

(** The last report and the last visit are rows of greatest time. *)
Lemma get_last_report_spec (self : DropPoint.t) (R : Report.t) :
  DropPoint.get_last_report self = Some R →
  R ∈ DropPoint.reports self ∧
  ∀ r, r ∈ DropPoint.reports self → Report.time r ≤ Report.time R.
Proof. apply head_order_by_desc_Some. Qed.

Lemma get_last_visit_spec (self : DropPoint.t) (V : Visit.t) :
  DropPoint.get_last_visit self = Some V →
  V ∈ DropPoint.visits self ∧
  ∀ v, v ∈ DropPoint.visits self → Visit.time v ≤ Visit.time V.
Proof. apply head_order_by_desc_Some. Qed.

Section StatusFacts.
Variable Report_states : list string.
Variable Visit_actions : list string.

Abbreviation get_last_state :=
  (DropPoint.get_last_state Report_states Visit_actions).
Abbreviation scan_visits :=
  (DropPoint.scan_visits Report_states Visit_actions).

(** The loop returns the last state as soon as it meets a visit with the
    first action, and the reported state if it meets none. *)
Lemma scan_visits_spec (R : Report.t) (vs : list Visit.t) EMPTIED SERVICED :
  Visit_actions !! 0%nat = Some EMPTIED →
  last Report_states = Some SERVICED →
  scan_visits R vs =
    if decide (Exists (λ v, Visit.action v = EMPTIED) vs)
    then Ok SERVICED else Ok (Report.state R).
Proof.
  intros Ha Hs. apply (getitem_nonneg _ 0%nat) in Ha.
  apply getitem_last in Hs. change (Z.of_nat 0) with 0 in Ha.
  induction vs as [|v vs IH]; cbn [DropPoint.scan_visits].
  - rewrite decide_False; [done|]. by intros ?%Exists_nil.
  - rewrite Ha. cbn [mbind result_bind].
    destruct (String.eqb_spec (Visit.action v) EMPTIED) as [E|N].
    + rewrite Hs, decide_True; [done|]. by left.
    + rewrite IH. destruct (decide (Exists _ vs)) as [He|Hn].
      * rewrite decide_True; [done|]. by right.
      * rewrite decide_False; [done|]. by intros [?|?]%Exists_cons.
Qed.

Lemma Exists_visits_after (t : Z) (P : Visit.t → Prop) (vs : list Visit.t) :
  Exists P (order_by_desc Visit.time (filter (λ v, t < Visit.time v) vs)) ↔
  ∃ v, v ∈ vs ∧ t < Visit.time v ∧ P v.
Proof.
  rewrite Exists_exists. split; intros (v & Hv & HP); exists v.
  - rewrite order_by_desc_Permutation in Hv.
    apply list_elem_of_filter in Hv. tauto.
  - rewrite order_by_desc_Permutation, list_elem_of_filter. tauto.
Qed.

(** The row picked by the query is a most recent one, and has the time of
    every most recent one. *)
Lemma get_last_report_of_latest (self : DropPoint.t) (R : Report.t) :
  is_last_report self R →
  ∃ R0, DropPoint.get_last_report self = Some R0 ∧ is_last_report self R0 ∧
        Report.time R0 = Report.time R.
Proof.
  intros [Hin Hmax].
  destruct (DropPoint.get_last_report self) as [R0|] eqn:E.
  - pose proof (get_last_report_spec self R0 E) as [Hin0 Hmax0].
    exists R0. split; [done|]. split; [done|].
    apply Z.le_antisymm; auto.
  - apply head_order_by_desc_None in E. rewrite E in Hin.
    by apply elem_of_nil in Hin.
Qed.

Lemma get_last_visit_of_latest (self : DropPoint.t) (V : Visit.t) :
  is_last_visit self V →
  ∃ V0, DropPoint.get_last_visit self = Some V0 ∧ is_last_visit self V0 ∧
        Visit.time V0 = Visit.time V.
Proof.
  intros [Hin Hmax].
  destruct (DropPoint.get_last_visit self) as [V0|] eqn:E.
  - pose proof (get_last_visit_spec self V0 E) as [Hin0 Hmax0].
    exists V0. split; [done|]. split; [done|].
    apply Z.le_antisymm; auto.
  - apply head_order_by_desc_None in E. rewrite E in Hin.
    by apply elem_of_nil in Hin.
Qed.

(** C3. Let [R] be a most recent report and [V] a most recent visit of the
    drop point (a row of the table such that no row is later), with [R]
    older than [V].  If some visit after [R] has the action
    [Visit.actions[0]], the state is the last of [Report.states].
    Otherwise it is the state of a most recent report: that of [R] itself
    whenever all most recent reports (there are several only if they carry
    the same time) report the same state. *)
Theorem get_last_state_visit_after_report
    (self : DropPoint.t) (R : Report.t) (V : Visit.t) EMPTIED SERVICED :
  is_last_report self R →
  is_last_visit self V →
  Report.time R < Visit.time V →
  Visit_actions !! 0%nat = Some EMPTIED →
  last Report_states = Some SERVICED →
  ((∃ v, v ∈ DropPoint.visits self ∧ Report.time R < Visit.time v ∧
         Visit.action v = EMPTIED) →
   get_last_state self = Ok SERVICED) ∧
  ((¬ ∃ v, v ∈ DropPoint.visits self ∧ Report.time R < Visit.time v ∧
           Visit.action v = EMPTIED) →
   (∃ R', is_last_report self R' ∧
          get_last_state self = Ok (Report.state R')) ∧
   ((∀ r, is_last_report self r → Report.state r = Report.state R) →
    get_last_state self = Ok (Report.state R))).
Proof.
  intros HR HV Hlt Ha Hs.
  destruct (get_last_report_of_latest self R HR) as (R0 & ER & HR0 & EtR).
  destruct (get_last_visit_of_latest self V HV) as (V0 & EV & HV0 & EtV).
  unfold DropPoint.get_last_state. rewrite ER, EV.
  rewrite (proj2 (Z.ltb_lt (Report.time R0) (Visit.time V0))) by lia.
  rewrite (scan_visits_spec _ _ _ _ Ha Hs). rewrite <- EtR.
  split; intros H.
  - rewrite decide_True; [done|]. by apply Exists_visits_after.
  - rewrite decide_False by (by rewrite Exists_visits_after).
    split; [by exists R0|]. intros Hsame. by rewrite (Hsame R0 HR0).
Qed.

(** C4. Let [R] be a most recent report and [V] a most recent visit of the
    drop point, with [R] not older than [V] (equal times included).  The
    state is the state of a most recent report, whatever the actions of
    the visits: that of [R] itself whenever all most recent reports report
    the same state. *)
Theorem get_last_state_report_not_older
    (self : DropPoint.t) (R : Report.t) (V : Visit.t) :
  is_last_report self R →
  is_last_visit self V →
  Visit.time V ≤ Report.time R →
  (∃ R', is_last_report self R' ∧
         get_last_state self = Ok (Report.state R')) ∧
  ((∀ r, is_last_report self r → Report.state r = Report.state R) →
   get_last_state self = Ok (Report.state R)).
Proof.
  intros HR HV Hle.
  destruct (get_last_report_of_latest self R HR) as (R0 & ER & HR0 & EtR).
  destruct (get_last_visit_of_latest self V HV) as (V0 & EV & HV0 & EtV).
  unfold DropPoint.get_last_state. rewrite ER, EV.
  rewrite (proj2 (Z.ltb_ge (Report.time R0) (Visit.time V0))) by lia.
  split; [by exists R0|]. intros Hsame. by rewrite (Hsame R0 HR0).
Qed.

(** Without reports and visits the state is [Report.states[1]]. *)
Lemma get_last_state_no_history (self : DropPoint.t) :
  DropPoint.reports self = [] → DropPoint.visits self = [] →
  get_last_state self = getitem Report_states 1.
Proof.
  intros HR HV. unfold DropPoint.get_last_state,
    DropPoint.get_last_report, DropPoint.get_last_visit.
  by rewrite HR, HV.
Qed.
End StatusFacts.

(** ** The visit priority *)

Lemma latest_None times : latest times = None → times = [].
Proof. by destruct times. Qed.

Lemma latest_Some times t :
  latest times = Some t → t ∈ times ∧ ∀ u, u ∈ times → u ≤ t.
Proof.
  revert t. induction times as [|a times IH]; intros t E; [done|].
  simpl in E. destruct (latest times) as [m|] eqn:Em; simplify_eq/=.
  - destruct (IH m eq_refl) as [Hin Hmax]. split.
    + destruct (Z.max_spec a m) as [[_ ->]|[_ ->]]; [by right|by left].
    + intros u [->|Hu]%elem_of_cons; [lia|]. specialize (Hmax u Hu). lia.
  - apply latest_None in Em as ->. split; [by left|].
    intros u [->|Hu]%elem_of_cons; [lia|]. by apply elem_of_nil in Hu.
Qed.

Lemma get_last_visit_time (self : DropPoint.t) :
  Visit.time <$> DropPoint.get_last_visit self = last_visit_time self.
Proof.
  unfold DropPoint.get_last_visit, last_visit_time.
  destruct (head _) as [V|] eqn:E; simpl.
  - apply head_order_by_desc_Some in E as [Hin Hmax].
    destruct (latest _) as [t|] eqn:Et.
    + apply latest_Some in Et as [Ht Htmax].
      apply list_elem_of_fmap in Ht as (W & -> & HW).
      f_equal. apply Z.le_antisymm; [|by apply Hmax].
      apply Htmax, list_elem_of_fmap. eauto.
    + apply latest_None, fmap_nil_inv in Et. rewrite Et in Hin.
      by apply elem_of_nil in Hin.
  - apply head_order_by_desc_None in E. by rewrite E.
Qed.

Lemma total_seconds_lt (a b : Z) :
  a < b → (total_seconds a < total_seconds b)%Qc.
Proof.
  intros H. unfold Qclt, total_seconds. simpl. rewrite !Qred_correct.
  unfold Qlt. simpl. lia.
Qed.


Section PriorityFacts.
Variable Report_states : list string.
Variable Visit_actions : list string.
Variable get_weight : Report.t → Qc.
Variable config : gmap string Qc.

Abbreviation get_priority_factor :=
  (DropPoint.get_priority_factor get_weight config).
Abbreviation get_priority := (DropPoint.get_priority get_weight config).
Abbreviation add_report := (DropPoint.add_report get_weight).


Lemma get_new_reports_spec (self : DropPoint.t) :
  DropPoint.get_new_reports self ≡ₚ reports_since_last_visit self ∧
  StronglySorted (λ a b, Report.time b ≤ Report.time a)
    (DropPoint.get_new_reports self).
Proof.
  unfold DropPoint.get_new_reports, reports_since_last_visit.
  rewrite <- get_last_visit_time.
  destruct (DropPoint.get_last_visit self) as [V|]; simpl;
    split; auto using order_by_desc_Permutation, order_by_desc_Sorted.
Qed.

Lemma get_priority_base_time_spec (self : DropPoint.t) :
  DropPoint.get_priority_base_time self = base_time self.
Proof.
  unfold DropPoint.get_priority_base_time, base_time.
  rewrite <- get_last_visit_time.
  by destruct (DropPoint.get_last_visit self).
Qed.




Lemma get_priority_factor_removed (self : DropPoint.t) :
  is_Some (DropPoint.removed self) → get_priority_factor self = Ok (num 0).
Proof.
  intros Hrem. unfold DropPoint.get_priority_factor.
  by rewrite bool_decide_eq_true_2.
Qed.

Lemma get_priority_removed (self : DropPoint.t) (now : datetime) :
  is_Some (DropPoint.removed self) → get_priority self now = Ok (num 0).
Proof.
  intros Hrem. unfold DropPoint.get_priority.
  rewrite get_priority_factor_removed by done. cbn [mbind result_bind].
  change (num 0 * ?x)%Qc with (0 * x)%Qc.
  by rewrite Qcmult_0_l, <- py_round2_zero.
Qed.

(** C2. A removed drop point has factor 0 and score 0, whatever its
    reports and visits and whatever the configuration. *)
Theorem priority_of_removed_drop_point (self : DropPoint.t) (now : datetime) :
  is_Some (DropPoint.removed self) →
  get_priority_factor self = Ok (num 0) ∧ get_priority self now = Ok (num 0).
Proof.
  intros Hrem. split.
  - by apply get_priority_factor_removed.
  - by apply get_priority_removed.
Qed.

Lemma get_new_reports_no_history (self : DropPoint.t) :
  DropPoint.reports self = [] → DropPoint.visits self = [] →
  DropPoint.get_new_reports self = [] ∧
  DropPoint.get_priority_base_time self = DropPoint.time self.
Proof.
  intros HR HV. unfold DropPoint.get_new_reports,
    DropPoint.get_priority_base_time, DropPoint.get_last_visit.
  by rewrite HR, HV.
Qed.


End PriorityFacts.

(** ** Floats *)

Section FloatFacts.
Import Binary64.
Local Open Scope Q_scope.

Lemma Qneg_true (x : Q) : Qneg x = true ↔ x < 0.
Proof.
  unfold Qneg. rewrite negb_true_iff, <- not_true_iff_false, Qle_bool_iff.
  split; [apply Qnot_le_lt|apply Qlt_not_le].
Qed.

Lemma Qneg_false (x : Q) : Qneg x = false ↔ 0 <= x.
Proof. unfold Qneg. by rewrite negb_false_iff, Qle_bool_iff. Qed.

Lemma Qneg_proper (x y : Q) : x == y → Qneg x = Qneg y.
Proof.
  intros E. destruct (Qneg y) eqn:Ey.
  - apply Qneg_true. apply Qneg_true in Ey. lra.
  - apply Qneg_false. apply Qneg_false in Ey. lra.
Qed.

Lemma Q2Qc_this (x : Q) : (Q2Qc x : Q) == x.
Proof. apply Qred_correct. Qed.

Lemma round_cases (x : Q) :
  (RN x == 0 ∧ round x = Zero (Qneg x)) ∨
  (¬ RN x == 0 ∧ 2 ^ 1024 <= Qabs (RN x) ∧ round x = Inf (Qneg x)) ∨
  (¬ RN x == 0 ∧ Qabs (RN x) < 2 ^ 1024 ∧ round x = Finite (Q2Qc (RN x))).
Proof.
  unfold round. cbv zeta.
  destruct (Qeq_bool (RN x) 0) eqn:E0.
  - left. by apply Qeq_bool_iff in E0.
  - right. assert (¬ RN x == 0) as N.
    { intros H. apply Qeq_bool_iff in H. congruence. }
    destruct (Qle_bool (2 ^ 1024) (Qabs (RN x))) eqn:E1.
    + left. by apply Qle_bool_iff in E1.
    + right. split; [done|]. split; [|done].
      apply Qnot_le_lt. intros H. apply Qle_bool_iff in H. congruence.
Qed.

Lemma round_proper (x y : Q) : x == y → round x = round y.
Proof.
  intros E. pose proof (RN_proper x y E) as ER.
  pose proof (Qneg_proper x y E) as EN.
  pose proof (Qabs_wd _ _ ER) as EA.
  destruct (round_cases x) as [[H ->]|[(H1 & H2 & ->)|(H1 & H2 & ->)]],
    (round_cases y) as [[H' ->]|[(H1' & H2' & ->)|(H1' & H2' & ->)]];
    try (exfalso; lra); try (exfalso; apply H1; lra);
    try (exfalso; apply H1'; lra); try (by rewrite EN).
  f_equal. by apply Q2Qc_eq_iff.
Qed.

Lemma representable_pow2 (k : Z) : (-1074 ≤ k)%Z → representable (2 ^ k).
Proof.
  intros H. exists 1%Z, k. split; [|split; [done|done]].
  change (inject_Z 1) with 1. ring.
Qed.

Lemma RN_ge (x a : Q) : representable a → a <= x → a <= RN x.
Proof. intros Ha H. rewrite <- (RN_idem a Ha). by apply RN_mono. Qed.

Lemma RN_le (x a : Q) : representable a → x <= a → RN x <= a.
Proof. intros Ha H. rewrite <- (RN_idem a Ha). by apply RN_mono. Qed.

Lemma Qpow2_le_inv (a b : Z) : 2 ^ a <= 2 ^ b → (a ≤ b)%Z.
Proof. intros H. apply (Qpower_le_compat_l_inv 2); [done|lra]. Qed.

(** Within the range of the normal and subnormal numbers, the result is
    the rounded value. *)
Lemma round_between (lo hi : Z) (x : Q) :
  (-1074 ≤ lo)%Z → (hi ≤ 1023)%Z → 2 ^ lo <= x → x <= 2 ^ hi →
  round x = Finite (Q2Qc (RN x)) ∧ 2 ^ lo <= RN x ∧ RN x <= 2 ^ hi.
Proof.
  intros Hlo Hhi H1 H2.
  assert (lo ≤ hi)%Z as Hlh by (apply Qpow2_le_inv; lra).
  assert (2 ^ lo <= RN x) as H3 by (by apply RN_ge; [apply representable_pow2|]).
  assert (RN x <= 2 ^ hi) as H4
    by (by apply RN_le; [apply representable_pow2; lia|]).
  pose proof (Qpow2_pos lo) as Hp.
  assert (2 ^ hi < 2 ^ 1024) as Hq by (apply Qpow2_lt; lia).
  split; [|done].
  destruct (round_cases x) as [[H _]|[(_ & H & _)|(_ & _ & ->)]];
    [exfalso; lra| |done].
  exfalso. rewrite Qabs_pos in H by lra. lra.
Qed.


Lemma round_0 (x : Q) : x == 0 → round x = Zero false.
Proof.
  intros E. rewrite (round_proper x 0 E). reflexivity.
Qed.

(** What the result of an operation is to the exact value: the nearest
    representable number, unless the result is an infinity. *)
Lemma round_nearest (x : Q) :
  match round x with
  | Zero _ => nearest x 0
  | Finite d => nearest x d
  | Inf _ => 2 ^ 1024 <= Qabs (RN x)
  | NaN => False
  end.
Proof.
  pose proof (RN_nearest x) as [Hr Hn].
  destruct (round_cases x) as [[H ->]|[(H1 & H2 & ->)|(H1 & H2 & ->)]].
  - split; [apply representable_0|]. intros d Hd.
    rewrite (Qabs_wd (x - 0) (x - RN x)); [by apply Hn|]. rewrite H. reflexivity.
  - done.
  - pose proof (Q2Qc_this (RN x)) as E. split.
    + apply (representable_proper (RN x)); [by symmetry|done].
    + intros d Hd. rewrite (Qabs_wd (x - Q2Qc (RN x)) (x - RN x));
        [by apply Hn|]. rewrite E. reflexivity.
Qed.

End FloatFacts.

(** ** The visit priority in Python's arithmetic *)

Section FloatPriorityFacts.
Import Binary64.
Variable get_weight : Report.t → Py.num.
Variable config : gmap string Py.num.

(** The loop adds the terms of the sum one after the other. *)
Lemma foldl_add_report_numerator (done_ l : list Report.t) :
  foldl (Priority.add_report get_weight)
    (p ← Formula.numerator get_weight config (done_ ++ l) (length done_);
     Ok (p, length done_)) l
  = (p ← Formula.numerator get_weight config (done_ ++ l)
           (length (done_ ++ l));
     Ok (p, length (done_ ++ l))).
Proof.
  revert done_. induction l as [|r l IH]; intros done_.
  - by rewrite app_nil_r.
  - cbn [foldl].
    replace (done_ ++ r :: l) with ((done_ ++ [r]) ++ l)
      by (by rewrite <- app_assoc).
    rewrite <- IH. f_equal.
    rewrite length_app. cbn [length]. rewrite Nat.add_1_r.
    cbn [Formula.numerator].
    rewrite <- app_assoc. cbn [app].
    rewrite list_lookup_middle by done.
    unfold Priority.add_report.
    destruct (Formula.numerator _ _ _ _) as [p|e]; [|done].
    cbn [mbind result_bind].
    destruct (Py.truediv _ _) as [term|e]; [|done].
    cbn [mbind result_bind].
    by destruct (Py.add p term).
Qed.

Lemma get_priority_factor_formula (self : DropPoint.t) :
  DropPoint.removed self = None →
  Priority.get_priority_factor get_weight config self
  = Formula.factor get_weight config (DropPoint.get_new_reports self).
Proof.
  intros Hact. unfold Priority.get_priority_factor, Formula.factor.
  rewrite Hact, bool_decide_eq_false_2 by (by intros [? ?]).
  cbv zeta.
  pose proof (foldl_add_report_numerator [] (DropPoint.get_new_reports self))
    as H.
  cbn [app length Formula.numerator mbind result_bind] in H.
  unfold Priority.config_get. fold (Formula.B config). rewrite H.
  destruct (Formula.numerator _ _ _ _) as [p|e]; [|done].
  cbn [mbind result_bind].
  unfold Formula.visit_interval_seconds, Priority.get_visit_interval,
    Priority.config_get. fold (Formula.interval_minutes config).
  by destruct (Py.mul (Py.Int 60) _) as [s|e].
Qed.

Lemma get_priority_formula (self : DropPoint.t) (now : datetime) :
  DropPoint.removed self = None →
  Priority.get_priority get_weight config self now
  = Formula.score get_weight config (DropPoint.get_new_reports self) self now.
Proof.
  intros Hact. unfold Priority.get_priority, Formula.score, Formula.product.
  rewrite get_priority_factor_formula by done.
  unfold Priority.total_seconds, Formula.elapsed_seconds.
  rewrite get_priority_base_time_spec.
  destruct (Formula.factor _ _ _) as [f|e]; [|done].
  cbn [mbind result_bind].
  by destruct (Py.truediv _ _) as [t|e].
Qed.

Lemma of_quotient_approximates (m n : Z) (t : float) :
  n ≠ 0 → Py.checked (of_quotient m n) = Ok t →
  approximates (inject_Z m / inject_Z n)%Q t.
Proof.
  intros Hn. unfold of_quotient. destruct (decide (m = 0)) as [->|Hm].
  - intros [= <-]. split; [apply representable_0|]. intros d Hd.
    rewrite (Qabs_wd (inject_Z 0 / inject_Z n - 0) 0)%Q.
    + apply Qabs_nonneg.
    + unfold Qdiv. change (inject_Z 0) with 0%Q. ring.
  - pose proof (round_nearest (inject_Z m / inject_Z n)%Q) as H.
    destruct (round _) as [s|d|s|]; try done; by intros [= <-].
Qed.

Lemma truediv_Int_approximates (m n : Z) (t : float) :
  n ≠ 0 → Py.truediv (Py.Int m) (Py.Int n) = Ok (Py.Float t) →
  approximates (inject_Z m / inject_Z n)%Q t.
Proof.
  intros Hn. unfold Py.truediv. rewrite decide_False by done.
  destruct (Py.checked _) as [x|e] eqn:E; [|done].
  intros [= <-]. by apply of_quotient_approximates.
Qed.

Lemma round2_approximates (p : Qc) (s : float) :
  Py.round2 (Py.Float (Finite p)) = Ok (Py.Float s) →
  ∃ k : Z, (Qabs (p * 100 - inject_Z k) <= 1 # 2)%Q ∧
           approximates (inject_Z k / 100)%Q s.
Proof.
  unfold Py.round2. set (k := round_half_even (p * 100)%Q).
  intros H. exists k. split.
  - pose proof (round_half_even_error (p * 100)%Q) as [H1 H2]. fold k in H1, H2.
    apply Qabs_Qle_condition. split; lra.
  - destruct (decide (k = 0)) as [E|N].
    + cbn [Py.checked mbind result_bind] in H. injection H as <-.
      split; [apply representable_0|]. intros d Hd. rewrite E.
      rewrite (Qabs_wd (inject_Z 0 / 100 - 0) 0)%Q; [apply Qabs_nonneg|].
      reflexivity.
    + destruct (Py.checked _) as [y|e] eqn:E; [|done].
      injection H as <-.
      by apply (of_quotient_approximates k 100).
Qed.

(** C1, amended. For a drop point that is not removed, the factor is
    [(B + Σ_i weight(newReports[i]) / 2^i) / visit_interval_seconds]
    evaluated in Python's arithmetic, the terms added to [B] from [i = 0]
    on: its value, or the error of the first operation that raises.
    [newReports] are exactly the reports after the last visit (all reports
    without a visit) from newest to oldest.  The score is
    [round(factor * seconds, 2)] in the same arithmetic: [seconds] is the
    float nearest to [now - base_time] in seconds, and a finite score is
    the float nearest to [k / 100], where [k] is an integer nearest to a
    hundred times the product as computed. *)
Theorem priority_of_active_drop_point (self : DropPoint.t) (now : datetime) :
  DropPoint.removed self = None →
  ∃ new_reports : list Report.t,
    new_reports ≡ₚ reports_since_last_visit self ∧
    StronglySorted (λ a b, Report.time b ≤ Report.time a) new_reports ∧
    Priority.get_priority_factor get_weight config self
    = Formula.factor get_weight config new_reports ∧
    Priority.get_priority get_weight config self now
    = Formula.score get_weight config new_reports self now ∧
    (∀ t, Formula.elapsed_seconds self now = Ok (Py.Float t) →
          approximates (inject_Z (now - base_time self) / 1000000)%Q t) ∧
    (∀ (p : Qc) s,
       Formula.product get_weight config new_reports self now
       = Ok (Py.Float (Finite p)) →
       Priority.get_priority get_weight config self now = Ok (Py.Float s) →
       ∃ k : Z, (Qabs (p * 100 - inject_Z k) <= 1 # 2)%Q ∧
                approximates (inject_Z k / 100)%Q s).
Proof.
  intros Hact. exists (DropPoint.get_new_reports self).
  destruct (get_new_reports_spec self) as [HP HS].
  split; [done|]. split; [done|].
  split; [by apply get_priority_factor_formula|].
  split; [by apply get_priority_formula|]. split.
  - intros t Ht. by apply (truediv_Int_approximates _ 1000000).
  - intros p s Hp Hs. rewrite get_priority_formula in Hs by done.
    unfold Formula.score in Hs. rewrite Hp in Hs.
    by apply round2_approximates.
Qed.

End FloatPriorityFacts.

Section IntervalFacts.
Import Binary64.
Local Open Scope Q_scope.

Lemma as_float_Int_between (n : Z) (hi : Z) :
  (0 < n)%Z → (hi ≤ 1023)%Z → inject_Z n <= 2 ^ hi →
  ∃ y : Qc, Py.as_float (Py.Int n) = Ok (Finite y) ∧ 1 <= y ∧ y <= 2 ^ hi.
Proof.
  intros Hn Hhi Hle.
  assert (1 <= inject_Z n) as H1.
  { change 1 with (inject_Z 1). rewrite <- Zle_Qle. lia. }
  destruct (round_between 0 hi (inject_Z n)) as (E & H2 & H3);
    [lia|done|done|done|].
  exists (Q2Qc (RN (inject_Z n))). unfold Py.as_float, of_Z. rewrite E.
  split; [done|]. rewrite Q2Qc_this. by change (2 ^ 0) with 1 in H2.
Qed.


Lemma mul_between (x y : Qc) (a b c d : Z) :
  (-1074 ≤ a + c)%Z → (b + d ≤ 1023)%Z →
  2 ^ a <= x → x <= 2 ^ b → 2 ^ c <= y → y <= 2 ^ d →
  ∃ z : Qc, mul (Finite x) (Finite y) = Finite z ∧ z == RN (x * y) ∧
            2 ^ (a + c) <= z ∧ z <= 2 ^ (b + d).
Proof.
  intros Hlo Hhi Hx1 Hx2 Hy1 Hy2.
  pose proof (Qpow2_pos a). pose proof (Qpow2_pos c).
  destruct (round_between (a + c) (b + d) (x * y)) as (E & H2 & H3);
    [done|done| | |].
  - rewrite Qpower_plus by done. apply Qmult_le_compat_nonneg; split; lra.
  - rewrite Qpower_plus by done. apply Qmult_le_compat_nonneg; split; lra.
  - exists (Q2Qc (RN (x * y))). cbn [mul]. rewrite E.
    split; [done|]. split; [apply Q2Qc_this|]. by rewrite Q2Qc_this.
Qed.

Lemma Qdiv_between (x y : Q) (a b c d : Z) :
  2 ^ a <= x → x <= 2 ^ b → 2 ^ c <= y → y <= 2 ^ d →
  2 ^ (a - d) <= x / y ∧ x / y <= 2 ^ (b - c).
Proof.
  intros Hx1 Hx2 Hy1 Hy2.
  pose proof (Qpow2_pos a). pose proof (Qpow2_pos c).
  pose proof (Qpow2_pos d). pose proof (Qpow2_pos b).
  rewrite !Qpower_minus by done. split.
  - apply Qle_shift_div_l; [lra|].
    apply Qle_trans with (2 ^ a / 2 ^ d * 2 ^ d); [|field_simplify; lra].
    apply Qmult_le_l; [|done]. by apply Qlt_shift_div_l; lra.
  - apply Qle_shift_div_r; [lra|].
    apply Qle_trans with (2 ^ b / 2 ^ c * 2 ^ c); [field_simplify; lra|].
    apply Qmult_le_l; [|done]. by apply Qlt_shift_div_l; lra.
Qed.

End IntervalFacts.

Section RangedFacts.
Import Binary64.
Local Open Scope Q_scope.

Lemma ranged_value_nonneg (lo hi : Z) (a : float) : ranged lo hi a → 0 <= value a.
Proof.
  intros [->|(z & -> & H1 & H2)]; [apply Qle_refl|].
  pose proof (Qpow2_pos lo). cbn [value]. lra.
Qed.

Lemma leb_ranged (lo hi lo' hi' : Z) (a b : float) :
  ranged lo hi a → ranged lo' hi' b → value a <= value b → leb a b = true.
Proof.
  intros [->|(x & -> & Hx1 & Hx2)] [->|(y & -> & Hy1 & Hy2)]; cbn [value leb];
    intros H; try done; by apply Qle_bool_iff.
Qed.

Lemma ltb_ranged (lo hi lo' hi' : Z) (a b : float) :
  ranged lo hi a → ranged lo' hi' b → value a < value b → ltb a b = true.
Proof.
  intros [->|(x & -> & Hx1 & Hx2)] [->|(y & -> & Hy1 & Hy2)];
    cbn [value ltb leb]; intros H.
  - exfalso. lra.
  - apply negb_true_iff, not_true_iff_false. rewrite Qle_bool_iff. lra.
  - pose proof (Qpow2_pos lo). exfalso. lra.
  - apply negb_true_iff, not_true_iff_false. rewrite Qle_bool_iff. lra.
Qed.

Lemma RN_0 (x : Q) : x == 0 → RN x == 0.
Proof. intros E. by rewrite (RN_proper x 0 E). Qed.

Lemma total_seconds_ranged (delta : Z) :
  (0 ≤ delta ≤ 2 ^ 60)%Z →
  ∃ t, Priority.total_seconds delta = Ok (Py.Float t) ∧ ranged (-20) 41 t ∧
       value t == RN (inject_Z delta / 1000000).
Proof.
  intros [H0 H1]. unfold Priority.total_seconds, Py.truediv.
  rewrite decide_False by done. unfold of_quotient.
  destruct (decide (delta = 0%Z)) as [->|N].
  - exists (Zero false). split; [done|]. split; [by left|].
    symmetry. by apply RN_0.
  - assert (1 <= inject_Z delta) as Hd1.
    { change 1 with (inject_Z 1). rewrite <- Zle_Qle. lia. }
    assert (inject_Z delta <= inject_Z (2 ^ 60)) as Hd2 by (by rewrite <- Zle_Qle).
    destruct (round_between (-20) 41 (inject_Z delta / inject_Z 1000000))
      as (E & H2 & H3); [done|done| | |].
    + apply Qle_shift_div_l; [done|].
      apply Qle_trans with 1; [|done]. by vm_compute.
    + apply Qle_shift_div_r; [done|].
      apply Qle_trans with (inject_Z (2 ^ 60)); [done|]. by vm_compute.
    + rewrite E. eexists. split; [done|]. split.
      * right. eexists. split; [done|]. by rewrite Q2Qc_this.
      * cbn [value]. apply Q2Qc_this.
Qed.

Lemma mul_ranged (f : Qc) (t : float) (a b c d : Z) :
  (-1074 ≤ a + c)%Z → (b + d ≤ 1023)%Z →
  2 ^ a <= f → f <= 2 ^ b → ranged c d t →
  ranged (a + c) (b + d) (mul (Finite f) t) ∧
  value (mul (Finite f) t) == RN (f * value t).
Proof.
  intros Hlo Hhi Hf1 Hf2 [->|(y & -> & Hy1 & Hy2)].
  - pose proof (Qpow2_pos a). cbn [mul sign value].
    rewrite (proj2 (Qneg_false f)) by lra. split; [by left|].
    symmetry. apply RN_0. ring.
  - destruct (mul_between f y a b c d) as (z & E & Ez & H1 & H2); try done.
    rewrite E. split; [|done]. right. by exists z.
Qed.

Lemma round2_ranged (p : float) (lo hi : Z) :
  (0 ≤ hi ≤ 1000)%Z → ranged lo hi p →
  ∃ s, Py.round2 (Py.Float p) = Ok (Py.Float s) ∧ ranged (-7) (hi + 1) s ∧
       value s == RN (inject_Z (round_half_even (value p * 100)) / 100).
Proof.
  intros Hhi [->|(x & -> & Hx1 & Hx2)].
  - exists (Zero false). split; [done|]. split; [by left|].
    symmetry. by apply RN_0.
  - pose proof (Qpow2_pos lo) as Hlo. cbn [value Py.round2].
    set (k := round_half_even (x * 100)).
    assert (0 ≤ k)%Z as Hk0.
    { rewrite <- (round_half_even_Z 0). apply round_half_even_mono.
      change (inject_Z 0) with 0. lra. }
    destruct (decide (k = 0%Z)) as [E|N].
    + exists (Zero false). rewrite (proj2 (Qneg_false x)) by lra.
      split; [done|]. split; [by left|]. rewrite E. symmetry. by apply RN_0.
    + unfold of_quotient. rewrite decide_False by done.
      pose proof (round_half_even_error (x * 100)) as [_ Hu]. fold k in Hu.
      assert (1 <= inject_Z k) as Hk1.
      { change 1 with (inject_Z 1). rewrite <- Zle_Qle. lia. }
      assert (1 <= 2 ^ hi) as Hh1.
      { change 1 with (2 ^ 0). apply Qpow2_le. lia. }
      destruct (round_between (-7) (hi + 1) (inject_Z k / inject_Z 100))
        as (E & H2 & H3); [done|lia| | |].
      * apply Qle_shift_div_l; [done|].
        apply Qle_trans with 1; [by vm_compute|done].
      * apply Qle_shift_div_r; [done|]. rewrite Qpow2_succ.
        change (inject_Z 100) with 100. lra.
      * rewrite E. eexists. split; [done|]. split.
        -- right. eexists. split; [done|]. by rewrite Q2Qc_this.
        -- cbn [value]. apply Q2Qc_this.
Qed.

Lemma RN_separation (x y : Q) :
  0 <= x → x + (1 # 100) <= y → y < 2 ^ 46 → RN x < RN y.
Proof.
  intros Hx Hxy Hy.
  assert (2 ^ (-8) == 1 # 256) as E8 by reflexivity.
  assert (∀ z, 0 < z → z < 2 ^ 46 → Qabs (z - RN z) <= 1 # 256) as Herr.
  { intros z Hz0 Hz. rewrite <- E8.
    apply Qle_trans with (2 ^ (ulp_exp z - 1)); [by apply RN_error|].
    apply Qpow2_le.
    destruct (Qlog2_bounds z Hz0) as [Hl _].
    assert (Qlog2 z < 46)%Z by (apply Qpow2_lt_inv; lra).
    unfold ulp_exp. lia. }
  pose proof (Herr y) as Hey.
  apply Qabs_Qle_condition in Hey as [Hy1 Hy2]; [|lra|done].
  destruct (Qle_lt_or_eq _ _ Hx) as [Hx0|Hx0].
  - pose proof (Herr x Hx0) as Hex.
    apply Qabs_Qle_condition in Hex as [Hx1 Hx2]; [|lra]. lra.
  - rewrite (RN_0 x) by (by symmetry). lra.
Qed.

End RangedFacts.

Section ConfiguredPriorityFacts.
Import Binary64.
Variable Report_states : list string.
Variable Visit_actions : list string.
Variable get_weight : Report.t → Py.num.
Variable config : gmap string Py.num.
Local Open Scope Q_scope.

Lemma as_float_ordinary (a : Py.num) :
  ordinary a →
  ∃ b : Qc, Py.as_float a = Ok (Finite b) ∧ 2 ^ (-400) <= b ∧ b <= 2 ^ 400.
Proof.
  destruct a as [n|[s|x|s|]]; try done.
  - intros [H0 H1].
    destruct (as_float_Int_between n 400) as (y & E & Hy1 & Hy2);
      [done|done| |].
    + rewrite <- Qpow2_Z by done. by rewrite <- Zle_Qle.
    + exists y. split; [done|]. split; [|done].
      apply Qle_trans with 1; [by vm_compute|done].
  - intros [H0 H1]. by exists x.
Qed.

Lemma one_between : 2 ^ 0 <= Q2Qc 1 ∧ Q2Qc 1 <= 2 ^ 0.
Proof. by vm_compute. Qed.

Lemma visit_interval_seconds_ordinary :
  ordinary (Formula.interval_minutes config) →
  ∃ s : Qc, Formula.visit_interval_seconds config = Ok (Py.Float (Finite s)) ∧
            2 ^ (-400) <= s ∧ s <= 2 ^ 406.
Proof.
  unfold Formula.visit_interval_seconds, Priority.one.
  destruct one_between as [Ho1 Ho2].
  destruct (Formula.interval_minutes config) as [n|[s|x|s|]]; try done.
  - intros [H0 H1]. cbn [Py.mul mbind result_bind Py.as_float].
    destruct (as_float_Int_between (60 * n) 406) as (y & E & Hy1 & Hy2);
      [lia|done| |].
    + rewrite <- Qpow2_Z by done. rewrite <- Zle_Qle.
      change (2 ^ 406)%Z with (64 * 2 ^ 400)%Z. lia.
    + cbn [Py.as_float] in E. rewrite E. cbn [mbind result_bind].
      destruct (mul_between (Q2Qc 1) y 0 0 0 406)
        as (z & Ez & _ & Hz1 & Hz2); try done.
      rewrite Ez. exists z.
      split; [done|]. split; [|done].
      apply Qle_trans with (2 ^ (0 + 0)); [by vm_compute|done].
  - intros [H0 H1].
    destruct (as_float_Int_between 60 6) as (c & E & Hc1 & Hc2);
      [done|done|by vm_compute|].
    cbn [Py.mul]. rewrite E. cbn [mbind result_bind Py.as_float].
    destruct (mul_between c x 0 6 (-400) 400)
      as (y & Ey & _ & Hy1 & Hy2); try done.
    rewrite Ey. cbn [Py.mul mbind result_bind Py.as_float].
    destruct (mul_between (Q2Qc 1) y 0 0 (-400) 406)
      as (z & Ez & _ & Hz1 & Hz2); try done.
    rewrite Ez. by exists z.
Qed.




Lemma truediv_by_float (a : Py.num) (y : float) :
  Py.truediv a (Py.Float y)
  = (x ← Py.as_float a;
     if is_zero y then Raise ZeroDivisionError
     else Ok (Py.Float (div x y))).
Proof. by destruct a. Qed.




Lemma get_priority_factor_no_history (self : DropPoint.t) :
  DropPoint.reports self = [] → DropPoint.visits self = [] →
  DropPoint.removed self = None →
  ordinary (Formula.B config) →
  ordinary (Formula.interval_minutes config) →
  ∃ f : Qc, Priority.get_priority_factor get_weight config self
            = Ok (Py.Float (Finite f)) ∧
            2 ^ (-806) <= f ∧ f <= 2 ^ 800.
Proof.
  intros HR HV Hact HB HI.
  destruct (get_new_reports_no_history self HR HV) as [En _].
  rewrite get_priority_factor_formula by done. rewrite En.
  unfold Formula.factor. cbn [length Formula.numerator mbind result_bind].
  destruct (visit_interval_seconds_ordinary HI) as (s & Es & Hs1 & Hs2).
  rewrite Es. cbn [mbind result_bind]. rewrite truediv_by_float.
  destruct (as_float_ordinary _ HB) as (b & Eb & Hb1 & Hb2).
  rewrite Eb. cbn [mbind result_bind is_zero div].
  destruct (Qdiv_between b s (-400) 400 (-400) 406) as [Hq1 Hq2]; try done.
  destruct (round_between (-806) 800 (b / s)) as (E & H2 & H3); try done.
  rewrite E. eexists. split; [done|]. by rewrite Q2Qc_this.
Qed.

(** C5, amended. A drop point without reports and visits has the state
    [Report.states[1]], removed or not.  If it is not removed and the base
    priority and the interval are positive numbers of ordinary size, then
    at two times [now1 < now2] not before its creation the score is
    returned, and the later score is not smaller than the earlier one; it
    is greater whenever the products of factor and seconds differ by more
    than 0.01 and do not exceed [2 ^ 45]. *)
Theorem priority_grows_without_history
    (self : DropPoint.t) (DEFAULT : string) :
  DropPoint.reports self = [] → DropPoint.visits self = [] →
  Report_states !! 1%nat = Some DEFAULT →
  DropPoint.get_last_state Report_states Visit_actions self = Ok DEFAULT ∧
  (DropPoint.removed self = None →
   ordinary (Formula.B config) →
   ordinary (Formula.interval_minutes config) →
   ∀ now1 now2 : datetime,
     (DropPoint.time self ≤ now1)%Z → (now1 < now2)%Z →
     (now2 - DropPoint.time self ≤ datetime_span)%Z →
     ∃ (f : Qc) (t1 t2 s1 s2 : float),
       Priority.get_priority_factor get_weight config self
       = Ok (Py.Float (Finite f)) ∧
       Priority.total_seconds (now1 - DropPoint.time self)
       = Ok (Py.Float t1) ∧
       Priority.total_seconds (now2 - DropPoint.time self)
       = Ok (Py.Float t2) ∧
       Priority.get_priority get_weight config self now1
       = Ok (Py.Float s1) ∧
       Priority.get_priority get_weight config self now2
       = Ok (Py.Float s2) ∧
       leb s1 s2 = true ∧
       (value (mul (Finite f) t1) + (1 # 100) < value (mul (Finite f) t2) →
        value (mul (Finite f) t2) <= 2 ^ 45 →
        ltb s1 s2 = true)).
Proof.
  intros HR HV Hdef. split.
  { rewrite get_last_state_no_history by done.
    by apply (getitem_nonneg _ 1%nat). }
  intros Hact HB HI now1 now2 H1 H12 H2.
  destruct (get_priority_factor_no_history self HR HV Hact HB HI)
    as (f & Ef & Hf1 & Hf2).
  destruct (get_new_reports_no_history self HR HV) as [_ Eb].
  assert (datetime_span ≤ 2 ^ 60)%Z as Hspan by (by vm_compute).
  destruct (total_seconds_ranged (now1 - DropPoint.time self))
    as (t1 & Et1 & Ht1 & Ev1); [lia|].
  destruct (total_seconds_ranged (now2 - DropPoint.time self))
    as (t2 & Et2 & Ht2 & Ev2); [lia|].
  destruct (mul_ranged f t1 (-806) 800 (-20) 41) as [Hp1 Evp1]; try done.
  destruct (mul_ranged f t2 (-806) 800 (-20) 41) as [Hp2 Evp2]; try done.
  destruct (round2_ranged _ (-806 + -20) (800 + 41) ltac:(lia) Hp1)
    as (s1 & Es1 & Hs1 & Evs1).
  destruct (round2_ranged _ (-806 + -20) (800 + 41) ltac:(lia) Hp2)
    as (s2 & Es2 & Hs2 & Evs2).
  exists f, t1, t2, s1, s2.
  split; [done|]. split; [done|]. split; [done|].
  assert (∀ now t, Priority.total_seconds (now - DropPoint.time self)
                   = Ok (Py.Float t) →
          Priority.get_priority get_weight config self now
          = Py.round2 (Py.Float (mul (Finite f) t))) as Hgp.
  { intros now t Et. unfold Priority.get_priority.
    rewrite Ef, Eb. cbn [mbind result_bind]. rewrite Et. done. }
  split; [by rewrite (Hgp _ _ Et1)|]. split; [by rewrite (Hgp _ _ Et2)|].
  set (p1 := mul (Finite f) t1) in *. set (p2 := mul (Finite f) t2) in *.
  pose proof (Qpow2_pos (-806)) as Hfpos.
  assert (value p1 <= value p2) as Hp12.
  { rewrite Evp1, Evp2. apply RN_mono.
    apply Qmult_le_l; [lra|]. rewrite Ev1, Ev2. apply RN_mono.
    apply Qmult_le_compat_r; [|done]. rewrite <- Zle_Qle. lia. }
  split.
  - apply (leb_ranged _ _ _ _ _ _ Hs1 Hs2). rewrite Evs1, Evs2.
    apply RN_mono. apply Qmult_le_compat_r; [|done].
    rewrite <- Zle_Qle. apply round_half_even_mono. lra.
  - intros Hgap Hsmall.
    apply (ltb_ranged _ _ _ _ _ _ Hs1 Hs2). rewrite Evs1, Evs2.
    pose proof (ranged_value_nonneg _ _ _ Hp1) as Hp10.
    pose proof (round_half_even_error (value p1 * 100)) as [_ Hk1].
    pose proof (round_half_even_error (value p2 * 100)) as [Hk2 Hk2'].
    set (k1 := round_half_even (value p1 * 100)) in *.
    set (k2 := round_half_even (value p2 * 100)) in *.
    assert (0 ≤ k1)%Z as Hk10.
    { unfold k1. rewrite <- (round_half_even_Z 0).
      apply round_half_even_mono. change (inject_Z 0) with 0. lra. }
    assert (k1 + 1 ≤ k2)%Z as Hk12.
    { assert (k1 < k2)%Z; [|lia]. rewrite Zlt_Qlt. lra. }
    rewrite Zle_Qle, inject_Z_plus in Hk12. rewrite Zle_Qle in Hk10.
    change (inject_Z 1) with 1 in Hk12. change (inject_Z 0) with 0 in Hk10.
    assert (2 ^ 46 == 2 * 2 ^ 45) as E46 by reflexivity.
    assert (1 <= 2 ^ 45) as H45 by (by vm_compute).
    apply RN_separation.
    + unfold Qdiv. change (/ 100) with (1 # 100). lra.
    + unfold Qdiv. change (/ 100) with (1 # 100). lra.
    + unfold Qdiv. change (/ 100) with (1 # 100). lra.
Qed.

End ConfiguredPriorityFacts.

(** ** Removal *)

(** C7, amended. [remove] raises and leaves the drop point as it is when
    the drop point is already removed and when the given time is in the
    future; otherwise it sets [removed] to the given time, or to the current
    time if none is given. The given time is not compared with the creation
    time. *)
Theorem remove_spec (self : DropPoint.t) (today : datetime) :
  (is_Some (DropPoint.removed self) →
   ∀ time, DropPoint.remove self time today = (self, Raise RuntimeError)) ∧
  (DropPoint.removed self = None →
   (∀ d, today < d →
      DropPoint.remove self (DropPoint.PyDatetime d) today
      = (self, Raise ValueError)) ∧
   (∀ d, d ≤ today →
      DropPoint.remove self (DropPoint.PyDatetime d) today
      = (DropPoint.set_removed self d, Ok ())) ∧
   DropPoint.remove self DropPoint.PyNone today
   = (DropPoint.set_removed self today, Ok ())) ∧
  (∀ d, DropPoint.removed (DropPoint.set_removed self d) = Some d).
Proof.
  unfold DropPoint.remove. split; [|split; [|done]].
  - intros Hrem time. by rewrite bool_decide_eq_true_2.
  - intros Hact. rewrite Hact, bool_decide_eq_false_2 by (by intros [? ?]).
    cbn [DropPoint.truth DropPoint.isinstance_datetime negb andb].
    split; [|split; [|done]]; intros d Hd.
    + by rewrite (proj2 (Z.ltb_lt _ _) Hd).
    + by rewrite (proj2 (Z.ltb_ge _ _) Hd).
Qed.

(** ** The current location *)

(** C9, amended. The current location is [None] without locations, and
    otherwise a location of greatest time among all locations of the drop
    point, whatever the current time; it is the latest location up to a
    time [now] when no location is later than [now]. *)
Theorem get_current_location_spec (self : DropPoint.t) :
  (DropPoint.location_rows self = [] →
   DropPoint.get_current_location self = None) ∧
  (DropPoint.location_rows self ≠ [] →
   ∃ l, DropPoint.get_current_location self = Some l ∧
        l ∈ DropPoint.location_rows self ∧
        (∀ l', l' ∈ DropPoint.location_rows self →
               Location.time l' ≤ Location.time l) ∧
        (∀ now,
           (∀ l', l' ∈ DropPoint.location_rows self → Location.time l' ≤ now) →
           Location.time l ≤ now)).
Proof.
  unfold DropPoint.get_current_location, DropPoint.locations. split.
  - by intros ->.
  - intros Hne.
    destruct (order_by_asc Location.time (DropPoint.location_rows self))
      as [|l0 s] eqn:E.
    { apply (sort_by_nil_inv (λ x y, Location.time x <=? Location.time y)) in E.
      done. }
    destruct (last (l0 :: s)) as [l|] eqn:El.
    + rewrite <- E in El. apply last_order_by_asc_Some in El as [Hin Hmax].
      exists l. repeat split; auto.
    + by apply last_None in El.
Qed.

(** ** The history *)

Lemma filter_fmap {A B} (f : A → B) (P : B → Prop) `{!∀ y, Decision (P y)}
    (l : list A) :
  filter P (f <$> l) = f <$> filter (λ x, P (f x)) l.
Proof.
  induction l as [|x l IH]; [done|].
  rewrite fmap_cons, !filter_cons. destruct (decide (P (f x))); by rewrite IH.
Qed.

Lemma history_unsorted_Permutation (self : DropPoint.t) :
  DropPoint.history_unsorted self ≡ₚ expected_events self.
Proof.
  unfold DropPoint.history_unsorted, expected_events, DropPoint.locations,
    DropPoint.visits, DropPoint.reports.
  cbv zeta. rewrite app_nil_l.
  fold visit_event report_event location_event (creation_event self).
  change map with (@fmap list _) in *.
  destruct (DropPoint.removed self); simpl;
    by rewrite (order_by_asc_Permutation Location.time), <- ?app_assoc.
Qed.

Lemma history_unsorted_at (self : DropPoint.t) (t : datetime) :
  filter (λ e, DropPoint.event_time e = t) (DropPoint.history_unsorted self)
  = filter (λ e, DropPoint.event_time e = t) (expected_events self).
Proof.
  unfold DropPoint.history_unsorted, expected_events, DropPoint.locations,
    DropPoint.visits, DropPoint.reports.
  cbv zeta. rewrite app_nil_l.
  fold visit_event report_event location_event (creation_event self).
  change map with (@fmap list _) in *.
  assert (filter (λ e, DropPoint.event_time e = t)
            (location_event <$>
               order_by_asc Location.time (DropPoint.location_rows self))
          = filter (λ e, DropPoint.event_time e = t)
              (location_event <$> DropPoint.location_rows self)) as Hloc.
  { rewrite !filter_fmap. f_equal. apply sort_by_filter.
    intros a b Ha Hb. simpl in *. lia. }
  destruct (DropPoint.removed self) as [d|]; simpl;
    rewrite ?filter_app, Hloc, <- ?app_assoc; [|done].
  do 3 f_equal. symmetry.
  apply (filter_app _ [creation_event self] [removal_event d]).
Qed.

(** C8. The history holds exactly one event for each visit, report and
    location, one for the creation and one for the removal if and only if
    the drop point is removed; it is in descending order of time; and
    events of one and the same time always come in one order: visits,
    reports, locations (each in table order), creation, removal. *)
Theorem get_history_spec (self : DropPoint.t) :
  DropPoint.get_history self ≡ₚ expected_events self ∧
  StronglySorted
    (λ a b, DropPoint.event_time b ≤ DropPoint.event_time a)
    (DropPoint.get_history self) ∧
  ∀ t, filter (λ e, DropPoint.event_time e = t) (DropPoint.get_history self)
       = filter (λ e, DropPoint.event_time e = t) (expected_events self).
Proof.
  unfold DropPoint.get_history. split; [|split].
  - rewrite order_by_desc_Permutation. apply history_unsorted_Permutation.
  - apply order_by_desc_Sorted.
  - intros t. rewrite order_by_desc_stable. apply history_unsorted_at.
Qed.

(** ** Drop points by state *)

(** A drop point has no attribute [last_state]. *)
Lemma getattr_last_state (dp : DropPoint.t) :
  Statistics.getattr dp "last_state" = Raise AttributeError.
Proof. reflexivity. Qed.

(** The tally never changes the dictionary: it skips removed drop points
    and raises at the first one that is not removed. *)
Lemma tally_all_unchanged (ret : gmap Statistics.pyval Z) dps :
  (Statistics.tally_all ret dps).1 = ret.
Proof.
  induction dps as [|dp dps IH]; [done|].
  cbn [Statistics.tally_all]. unfold Statistics.tally.
  rewrite getattr_last_state. by destruct (bool_decide _).
Qed.

Lemma tally_all_outcome (ret : gmap Statistics.pyval Z) dps :
  (Statistics.tally_all ret dps).2 =
    if decide (Forall (λ dp, is_Some (DropPoint.removed dp)) dps)
    then Ok () else Raise AttributeError.
Proof.
  induction dps as [|dp dps IH]; [done|].
  cbn [Statistics.tally_all]. unfold Statistics.tally.
  rewrite getattr_last_state.
  destruct (bool_decide_reflect (is_Some (DropPoint.removed dp))) as [Hr|Hn].
  - rewrite IH. destruct (decide (Forall _ dps)) as [Hd|Hd].
    + rewrite decide_True; [done|]. by constructor.
    + rewrite decide_False; [done|]. by intros [_ ?]%Forall_cons.
  - rewrite decide_False; [done|]. by intros [? _]%Forall_cons.
Qed.

Lemma zero_counts_lookup (states : list string) (k : Statistics.pyval)
    (m : gmap Statistics.pyval Z) :
  foldl (λ ret state, <[Statistics.VStr state := 0]> ret) m states !! k =
    if decide (k ∈ Statistics.VStr <$> states) then Some 0 else m !! k.
Proof.
  revert m. induction states as [|s states IH]; intros m.
  - cbn [foldl]. rewrite decide_False; [done|]. apply not_elem_of_nil.
  - cbn [foldl]. rewrite fmap_cons, IH.
    destruct (decide (k ∈ Statistics.VStr <$> states)) as [Hin|Hn].
    + rewrite decide_True; [done|]. by right.
    + destruct (decide (k = Statistics.VStr s)) as [->|Hne].
      * rewrite lookup_insert_eq, decide_True; [done|]. by left.
      * rewrite lookup_insert_ne by done.
        rewrite decide_False; [done|].
        by intros [?|?]%elem_of_cons.
Qed.

(** C10. Whatever the store holds, and also when the query fails,
    [drop_points_by_state] maps every report state to 0 and has no other
    key: the lookup of [last_state] raises for the first drop point that is
    not removed and the exception is discarded. *)
Theorem drop_points_by_state_all_zero
    (Report_states : list string) (query_all : result (list DropPoint.t))
    (k : Statistics.pyval) :
  Statistics.drop_points_by_state Report_states query_all !! k =
    if decide (k ∈ Statistics.VStr <$> Report_states) then Some 0 else None.
Proof.
  unfold Statistics.drop_points_by_state, Statistics.zero_counts.
  destruct query_all as [dps|e]; rewrite ?tally_all_unchanged;
    by rewrite zero_counts_lookup, lookup_empty.
Qed.

(** * Scenarios *)

(** The floats written by their decimals in the scenarios below. *)
Example sample_doubles :
  Binary64.round (1 # 100) = double 5764607523034235 576460752303423488 ∧
  Binary64.round (4 # 100) = double 5764607523034235 144115188075855872 ∧
  Binary64.round (319 # 100) = double 7183241405655941 2251799813685248 ∧
  Binary64.round (1 # 7200) = double 5124095576030431 36893488147419103232 ∧
  Binary64.round (5 # 7200) = double 6405119470038039 9223372036854775808.
Proof.
  repeat split; vm_compute; f_equal; apply Qc_is_canon; reflexivity.
Qed.

(** [reported_once], one report of weight 4.0, read 4600 s after its
    creation: the factor is [(1 + 4.0 / 2**0) / (1.0 * 7200)], the float
    0.0006944444444444445, and the score is 3.19.  [untouched], read after
    108 s: the score is 0.01. *)
Lemma priority_of_active_drop_point_witness :
  DropPoint.removed reported_once = None ∧
  DropPoint.removed untouched = None ∧
  Priority.get_priority_factor py_weight_four py_default_config reported_once
  = Ok (Py.Float (double 6405119470038039 9223372036854775808)) ∧
  Priority.get_priority py_weight_four py_default_config reported_once
    (seconds 4600)
  = Ok (Py.Float (double 7183241405655941 2251799813685248)) ∧
  Priority.get_priority py_weight_four py_default_config untouched
    (seconds 108)
  = Ok (Py.Float (double 5764607523034235 576460752303423488)).
Proof.
  split; [reflexivity|]. split; [reflexivity|].
  destruct (priority_of_active_drop_point py_weight_four py_default_config
              reported_once (seconds 4600) eq_refl)
    as (l & HP & _ & Hf & Hs & _).
  destruct (priority_of_active_drop_point py_weight_four py_default_config
              untouched (seconds 108) eq_refl)
    as (l' & HP' & _ & _ & Hs' & _).
  apply Permutation_singleton_r in HP. apply Permutation_nil_r in HP'.
  rewrite Hf, Hs, Hs', HP, HP'.
  repeat split; vm_compute; do 3 f_equal; apply Qc_is_canon; reflexivity.
Defined.

(** The score is not the exact product rounded, and the factor is not
    always returned.  With the default configuration [untouched] has the
    exact products 0.015 after 108 s and 0.035 after 252 s; the scores are
    0.01 and 0.04: the products as computed lie below the one and above
    the other.  With an interval of zero the factor is not returned, the
    division raises.  With 1025 reports of weight 4.0 it is not returned
    either: the divisor [2 ** 1024] of the last term is too large for a
    float. *)
Lemma priority_not_exact_formula :
  ((base_priority default_config + decayed_weight weight_four [])
   / visit_interval_seconds default_config
   * total_seconds (seconds 108 - base_time untouched))%Qc = Q2Qc (3 # 200) ∧
  Priority.get_priority py_weight_four py_default_config untouched
    (seconds 108)
  = Ok (Py.Float (double 5764607523034235 576460752303423488)) ∧
  ((base_priority default_config + decayed_weight weight_four [])
   / visit_interval_seconds default_config
   * total_seconds (seconds 252 - base_time untouched))%Qc = Q2Qc (7 # 200) ∧
  Priority.get_priority py_weight_four py_default_config untouched
    (seconds 252)
  = Ok (Py.Float (double 5764607523034235 144115188075855872)) ∧
  DropPoint.removed untouched = None ∧
  Priority.get_priority_factor py_weight_four py_zero_interval_config
    untouched
  = Raise ZeroDivisionError ∧
  DropPoint.removed flooded = None ∧
  Priority.get_priority_factor py_weight_four py_default_config flooded
  = Raise OverflowError.
Proof.
  split; [apply Qc_is_canon; reflexivity|].
  split; [vm_compute; do 3 f_equal; apply Qc_is_canon; reflexivity|].
  split; [apply Qc_is_canon; reflexivity|].
  split; [vm_compute; do 3 f_equal; apply Qc_is_canon; reflexivity|].
  split; [reflexivity|]. split; [reflexivity|]. split; [reflexivity|].
  by vm_compute.
Qed.

(** One report of weight 4, read 4600 s after the creation. *)
Example reported_once_priority :
  DropPoint.get_priority_factor weight_four default_config reported_once
  = Ok (Q2Qc (5 # 7200)) ∧
  DropPoint.get_priority weight_four default_config reported_once
    (seconds 4600) = Ok (Q2Qc (319 # 100)).
Proof. split; vm_compute; f_equal; apply Qc_is_canon; reflexivity. Qed.

Lemma priority_of_removed_drop_point_witness :
  is_Some (DropPoint.removed gone) ∧
  DropPoint.get_priority_factor weight_four zero_interval_config gone
  = Ok (num 0) ∧
  DropPoint.get_priority weight_four zero_interval_config gone (seconds 9000)
  = Ok (num 0).
Proof.
  assert (is_Some (DropPoint.removed gone)) as Hrem by (by eexists).
  split; [exact Hrem|].
  exact (priority_of_removed_drop_point weight_four zero_interval_config
           gone (seconds 9000) Hrem).
Defined.

(** Membership in a list given by its elements. *)
Ltac list_cases H :=
  repeat (apply elem_of_cons in H as [->|H]); [..|by apply elem_of_nil in H].

Lemma last_of_reports_10_50 (self : DropPoint.t) :
  DropPoint.reports self
  = [Report.mk (seconds 10) "FULL"; Report.mk (seconds 50) "OVERFLOW"] →
  is_last_report self (Report.mk (seconds 50) "OVERFLOW") ∧
  ∀ r, is_last_report self r → Report.state r = "OVERFLOW".
Proof.
  intros E. unfold is_last_report. rewrite E. split.
  - split; [set_solver|]. intros r Hr. list_cases Hr; vm_compute; discriminate.
  - intros r [Hr Hmax]. list_cases Hr; [exfalso|reflexivity].
    specialize (Hmax (Report.mk (seconds 50) "OVERFLOW")).
    apply Hmax; [set_solver|reflexivity].
Qed.

(** In [emptied_after_reports] the newest report (50 s, the second row) is
    older than the newest visit (60 s, the second row), which emptied the
    drop point: the state is "EMPTY".  In [crate_added_after_reports] the
    only visit after the newest report added a crate: the state is the
    reported "OVERFLOW", although an older visit emptied the drop point. *)
Lemma get_last_state_visit_after_report_witness :
  is_last_report emptied_after_reports (Report.mk (seconds 50) "OVERFLOW") ∧
  is_last_visit emptied_after_reports (Visit.mk (seconds 60) "EMPTIED") ∧
  DropPoint.get_last_state sample_states sample_actions emptied_after_reports
  = Ok "EMPTY" ∧
  is_last_report crate_added_after_reports
    (Report.mk (seconds 50) "OVERFLOW") ∧
  is_last_visit crate_added_after_reports
    (Visit.mk (seconds 60) "ADDED_CRATE") ∧
  DropPoint.get_last_state sample_states sample_actions
    crate_added_after_reports
  = Ok "OVERFLOW".
Proof.
  destruct (last_of_reports_10_50 emptied_after_reports eq_refl)
    as [HR1 _].
  destruct (last_of_reports_10_50 crate_added_after_reports eq_refl)
    as [HR2 Hsame].
  assert (is_last_visit emptied_after_reports
            (Visit.mk (seconds 60) "EMPTIED")) as HV1.
  { split; [set_solver|]. intros v Hv. list_cases Hv; vm_compute; discriminate. }
  assert (is_last_visit crate_added_after_reports
            (Visit.mk (seconds 60) "ADDED_CRATE")) as HV2.
  { split; [set_solver|]. intros v Hv. list_cases Hv; vm_compute; discriminate. }
  split; [exact HR1|]. split; [exact HV1|]. split.
  - refine (proj1 (get_last_state_visit_after_report
                     sample_states sample_actions emptied_after_reports
                     _ _ "EMPTIED" "EMPTY" HR1 HV1 _ eq_refl eq_refl) _).
    + reflexivity.
    + exists (Visit.mk (seconds 60) "EMPTIED").
      split; [set_solver|split; reflexivity].
  - split; [exact HR2|]. split; [exact HV2|].
    refine (proj2 (proj2 (get_last_state_visit_after_report
                     sample_states sample_actions crate_added_after_reports
                     _ _ "EMPTIED" "EMPTY" HR2 HV2 _ eq_refl eq_refl) _)
              Hsame).
    + reflexivity.
    + intros (v & Hv & Hlt & Ha). list_cases Hv; [discriminate Ha|].
      vm_compute in Hlt. discriminate Hlt.
Defined.

(** In [reported_after_visits] the newest report (50 s, the second row) is
    later than both visits, one of which emptied the drop point after the
    older report: the state is the reported "OVERFLOW".  In [same_time]
    the report and the emptying visit carry the same time: the state is
    the reported "FULL". *)
Lemma get_last_state_report_not_older_witness :
  is_last_report reported_after_visits (Report.mk (seconds 50) "OVERFLOW") ∧
  is_last_visit reported_after_visits (Visit.mk (seconds 30) "ADDED_CRATE") ∧
  DropPoint.get_last_state sample_states sample_actions reported_after_visits
  = Ok "OVERFLOW" ∧
  DropPoint.get_last_state sample_states sample_actions same_time = Ok "FULL".
Proof.
  destruct (last_of_reports_10_50 reported_after_visits eq_refl)
    as [HR Hsame].
  assert (is_last_visit reported_after_visits
            (Visit.mk (seconds 30) "ADDED_CRATE")) as HV.
  { split; [set_solver|]. intros v Hv. list_cases Hv; vm_compute; discriminate. }
  split; [exact HR|]. split; [exact HV|]. split.
  - refine (proj2 (get_last_state_report_not_older
                     sample_states sample_actions reported_after_visits
                     _ _ HR HV _) Hsame).
    vm_compute. discriminate.
  - assert (is_last_report same_time (Report.mk (seconds 30) "FULL")) as HR'.
    { split; [set_solver|]. intros r Hr. list_cases Hr. reflexivity. }
    assert (is_last_visit same_time (Visit.mk (seconds 30) "EMPTIED")) as HV'.
    { split; [set_solver|]. intros v Hv. list_cases Hv. reflexivity. }
    refine (proj2 (get_last_state_report_not_older
                     sample_states sample_actions same_time
                     _ _ HR' HV' _) _).
    + reflexivity.
    + intros r [Hr _]. list_cases Hr. reflexivity.
Defined.

(** The score does not always grow.  One and two seconds after its
    creation the score of [untouched] is 0.0 both times.  With an interval
    of -120 it falls from -0.01 after 36 s to -1.0 after 7200 s.  The
    removed [gone_unreported] has the score 0.0 throughout.  With a base
    priority of [10 ** 400] no score is returned, and with one of
    [5e-324] the factor and every score are 0.0. *)
Lemma priority_not_strictly_increasing :
  Priority.get_priority py_weight_four py_default_config untouched (seconds 1)
  = Ok (Py.Float (Binary64.Zero false)) ∧
  Priority.get_priority py_weight_four py_default_config untouched (seconds 2)
  = Ok (Py.Float (Binary64.Zero false)) ∧
  Priority.get_priority py_weight_four py_negative_interval_config untouched
    (seconds 36)
  = Ok (Py.Float (double (-5764607523034235) 576460752303423488)) ∧
  Priority.get_priority py_weight_four py_negative_interval_config untouched
    (seconds 7200)
  = Ok (Py.Float (double (-1) 1)) ∧
  DropPoint.reports gone_unreported = [] ∧
  DropPoint.visits gone_unreported = [] ∧
  Priority.get_priority py_weight_four py_default_config gone_unreported
    (seconds 3600)
  = Ok (Py.Float (Binary64.Zero false)) ∧
  Priority.get_priority py_weight_four py_default_config gone_unreported
    (seconds 7200)
  = Ok (Py.Float (Binary64.Zero false)) ∧
  Priority.get_priority py_weight_four py_huge_priority_config untouched
    (seconds 3600)
  = Raise OverflowError ∧
  Priority.get_priority py_weight_four py_tiny_priority_config untouched
    (seconds 3600)
  = Ok (Py.Float (Binary64.Zero false)) ∧
  Priority.get_priority py_weight_four py_tiny_priority_config untouched
    (seconds 7200)
  = Ok (Py.Float (Binary64.Zero false)).
Proof.
  split; [by vm_compute|]. split; [by vm_compute|].
  split; [vm_compute; do 3 f_equal; apply Qc_is_canon; reflexivity|].
  split; [vm_compute; do 3 f_equal; apply Qc_is_canon; reflexivity|].
  repeat split; by vm_compute.
Qed.

(** [untouched] with the default configuration, 36 s and 7200 s after its
    creation: the state is "NEW", the scores are 0.01 and 1.0. *)
Lemma priority_grows_without_history_witness :
  DropPoint.reports untouched = [] ∧ DropPoint.visits untouched = [] ∧
  sample_states !! 1%nat = Some "NEW" ∧
  DropPoint.removed untouched = None ∧
  ordinary (Formula.B py_default_config) ∧
  ordinary (Formula.interval_minutes py_default_config) ∧
  DropPoint.get_last_state sample_states sample_actions untouched
  = Ok "NEW" ∧
  Priority.get_priority py_weight_four py_default_config untouched
    (seconds 36)
  = Ok (Py.Float (double 5764607523034235 576460752303423488)) ∧
  Priority.get_priority py_weight_four py_default_config untouched
    (seconds 7200)
  = Ok (Py.Float (double 1 1)) ∧
  ∃ s1 s2 : Binary64.float,
    Priority.get_priority py_weight_four py_default_config untouched
      (seconds 36) = Ok (Py.Float s1) ∧
    Priority.get_priority py_weight_four py_default_config untouched
      (seconds 7200) = Ok (Py.Float s2) ∧
    Binary64.leb s1 s2 = true ∧ Binary64.ltb s1 s2 = true.
Proof.
  assert (ordinary (Formula.B py_default_config)) as HB
    by (split; [reflexivity|by vm_compute]).
  assert (ordinary (Formula.interval_minutes py_default_config)) as HI
    by (split; [reflexivity|by vm_compute]).
  split; [reflexivity|]. split; [reflexivity|]. split; [reflexivity|].
  split; [reflexivity|]. split; [exact HB|]. split; [exact HI|].
  destruct (priority_grows_without_history sample_states sample_actions
              py_weight_four py_default_config untouched "NEW"
              eq_refl eq_refl eq_refl) as [Hst Hgrow].
  destruct (Hgrow eq_refl HB HI (seconds 36) (seconds 7200))
    as (f & t1 & t2 & s1 & s2 & Ef & Et1 & Et2 & Es1 & Es2 & Hle & Hlt);
    [by vm_compute|reflexivity|by vm_compute|].
  split; [exact Hst|].
  split; [vm_compute; do 3 f_equal; apply Qc_is_canon; reflexivity|].
  split; [vm_compute; do 3 f_equal; apply Qc_is_canon; reflexivity|].
  exists s1, s2. split; [exact Es1|]. split; [exact Es2|].
  split; [exact Hle|].
  vm_compute in Ef, Et1, Et2.
  injection Ef as <-. injection Et1 as <-. injection Et2 as <-.
  apply Hlt; by vm_compute.
Defined.



(** A removal dated before the creation is accepted. *)
Lemma remove_before_creation_accepted :
  DropPoint.removed created_late = None ∧
  seconds 50 < DropPoint.time created_late ∧
  DropPoint.remove created_late (DropPoint.PyDatetime (seconds 50))
    (seconds 200)
  = (DropPoint.set_removed created_late (seconds 50), Ok ()).
Proof. repeat split. Qed.

Lemma remove_spec_witness :
  DropPoint.removed untouched = None ∧
  seconds 200 < seconds 300 ∧
  DropPoint.remove untouched (DropPoint.PyDatetime (seconds 300)) (seconds 200)
  = (untouched, Raise ValueError).
Proof.
  assert (seconds 200 < seconds 300) as Hlt by reflexivity.
  split; [reflexivity|]. split; [exact Hlt|].
  exact (proj1 (proj1 (proj2 (remove_spec untouched (seconds 200))) eq_refl)
           (seconds 300) Hlt).
Defined.

(** The location dated 100 s is the current one already at 10 s. *)
Lemma future_location_is_current :
  DropPoint.get_current_location relocated = Some (somewhere (seconds 100)) ∧
  seconds 10 < Location.time (somewhere (seconds 100)) ∧
  somewhere (seconds 5) ∈ DropPoint.location_rows relocated ∧
  Location.time (somewhere (seconds 5)) ≤ seconds 10.
Proof.
  split; [reflexivity|]. split; [reflexivity|]. split; [left|].
  vm_compute. discriminate.
Qed.

Lemma get_current_location_spec_witness :
  DropPoint.location_rows relocated ≠ [] ∧
  ∃ l, DropPoint.get_current_location relocated = Some l ∧
       l ∈ DropPoint.location_rows relocated ∧
       (∀ l', l' ∈ DropPoint.location_rows relocated →
              Location.time l' ≤ Location.time l) ∧
       (∀ now,
          (∀ l', l' ∈ DropPoint.location_rows relocated →
                 Location.time l' ≤ now) →
          Location.time l ≤ now).
Proof.
  assert (DropPoint.location_rows relocated ≠ []) as Hne by discriminate.
  split; [exact Hne|].
  exact (proj2 (get_current_location_spec relocated) Hne).
Defined.

(** The history of [gone]: removal, report, then the location and the
    creation, which share the time 0 and come in this order. *)
Example gone_history :
  DropPoint.get_history gone =
    [ removal_event (seconds 50);
      report_event (Report.mk (seconds 10) "OVERFLOW");
      location_event (somewhere 0);
      creation_event gone ].
Proof. reflexivity. Qed.

(** An emptied drop point is not counted under any state. *)
Example emptied_later_not_counted :
  Statistics.drop_points_by_state sample_states (Ok [gone; emptied_later])
    !! Statistics.VStr "EMPTY" = Some 0.
Proof. reflexivity. Qed.

(** * Further properties *)

(** ** More on the status *)

Lemma getitem_in_range {A} (l : list A) (i : nat) :
  (i < length l)%nat → ∃ x, getitem l (Z.of_nat i) = Ok x ∧ l !! i = Some x.
Proof.
  intros Hlt. destruct (lookup_lt_is_Some_2 l i Hlt) as [x Hx].
  exists x. split; [by apply getitem_nonneg|done].
Qed.

Lemma getitem_last_in_range {A} (l : list A) :
  (0 < length l)%nat → ∃ x, getitem l (-1) = Ok x ∧ last l = Some x.
Proof.
  intros Hlt. destruct (last l) as [x|] eqn:E.
  - exists x. split; [by apply getitem_last|done].
  - apply last_None in E. subst l. simpl in Hlt. lia.
Qed.

Lemma getitem_out_of_range {A} (l : list A) (i : nat) :
  (length l ≤ i)%nat → getitem l (Z.of_nat i) = Raise IndexError.
Proof.
  intros Hge. unfold getitem. cbv zeta.
  rewrite !(proj2 (Z.ltb_ge (Z.of_nat i) 0)) by lia.
  by rewrite (proj2 (Z.leb_le _ _)) by lia.
Qed.

Section MoreStatusFacts.
Variable Report_states : list string.
Variable Visit_actions : list string.

Abbreviation last_state :=
  (DropPoint.get_last_state Report_states Visit_actions).

(** X1. The last report and the last visit exist exactly when there are
    reports and visits, and none of the rows is later than they are. *)
Theorem last_rows_are_latest (self : DropPoint.t) :
  (DropPoint.get_last_report self = None ↔ DropPoint.reports self = []) ∧
  (DropPoint.get_last_visit self = None ↔ DropPoint.visits self = []) ∧
  (∀ R, DropPoint.get_last_report self = Some R →
        R ∈ DropPoint.reports self ∧
        ∀ r, r ∈ DropPoint.reports self → Report.time r ≤ Report.time R) ∧
  (∀ V, DropPoint.get_last_visit self = Some V →
        V ∈ DropPoint.visits self ∧
        ∀ v, v ∈ DropPoint.visits self → Visit.time v ≤ Visit.time V).
Proof.
  unfold DropPoint.get_last_report, DropPoint.get_last_visit.
  repeat split; try apply head_order_by_desc_None;
    try (by intros ->); intros; by eapply head_order_by_desc_Some.
Qed.

(** With reports but without visits the state is the one reported last,
    whatever [Report.states] and [Visit.actions] hold. *)
Lemma get_last_state_reports_only (self : DropPoint.t) (R : Report.t) :
  DropPoint.get_last_report self = Some R →
  DropPoint.visits self = [] →
  last_state self = Ok (Report.state R).
Proof.
  intros HR HV. unfold DropPoint.get_last_state, DropPoint.get_last_visit.
  by rewrite HR, HV.
Qed.

(** X2. Without reports only the action of the last visit counts: the state is
    the last of [Report.states] if that visit has the first action, and
    [Report.states[1]] otherwise, also when an earlier visit had the first
    action. *)
Theorem get_last_state_visits_only
    (self : DropPoint.t) (V : Visit.t) EMPTIED SERVICED DEFAULT :
  DropPoint.reports self = [] →
  DropPoint.get_last_visit self = Some V →
  Visit_actions !! 0%nat = Some EMPTIED →
  last Report_states = Some SERVICED →
  Report_states !! 1%nat = Some DEFAULT →
  last_state self =
    if decide (Visit.action V = EMPTIED) then Ok SERVICED else Ok DEFAULT.
Proof.
  intros HR HV Ha Hs Hd. unfold DropPoint.get_last_state,
    DropPoint.get_last_report.
  rewrite HR, HV. cbn [order_by_desc sort_by foldr head].
  apply (getitem_nonneg _ 0%nat) in Ha. apply (getitem_nonneg _ 1%nat) in Hd.
  change (Z.of_nat 0) with 0 in Ha. change (Z.of_nat 1) with 1 in Hd.
  rewrite Ha. cbn [mbind result_bind]. rewrite (getitem_last _ _ Hs), Hd.
  destruct (String.eqb_spec (Visit.action V) EMPTIED) as [E|N].
  - by rewrite decide_True.
  - by rewrite decide_False.
Qed.

Lemma get_last_state_Ok (self : DropPoint.t) :
  (2 ≤ length Report_states)%nat →
  (1 ≤ length Visit_actions)%nat →
  ∃ s, last_state self = Ok s ∧
       (s ∈ Report_states ∨
        ∃ r, r ∈ DropPoint.reports self ∧ Report.state r = s).
Proof.
  intros Hs Ha.
  destruct (getitem_in_range Visit_actions 0) as (a0 & Ha0 & Hla0); [lia|].
  destruct (getitem_in_range Report_states 1) as (d & Hd & Hld); [lia|].
  destruct (getitem_last_in_range Report_states) as (e & He & Hle); [lia|].
  change (Z.of_nat 0) with 0 in Ha0. change (Z.of_nat 1) with 1 in Hd.
  assert (d ∈ Report_states) as Hdin by (by eapply list_elem_of_lookup_2).
  assert (e ∈ Report_states) as Hein.
  { rewrite last_lookup in Hle. by eapply list_elem_of_lookup_2. }
  unfold DropPoint.get_last_state.
  destruct (DropPoint.get_last_report self) as [R|] eqn:HR.
  - assert (R ∈ DropPoint.reports self) as HRin
      by (by apply head_order_by_desc_Some in HR as [? _]).
    destruct (DropPoint.get_last_visit self) as [V|]; [|by eauto 6].
    destruct (Report.time R <? Visit.time V); [|by eauto 6].
    rewrite (scan_visits_spec _ _ _ _ a0 e Hla0 Hle).
    destruct (decide _); eauto 6.
  - destruct (DropPoint.get_last_visit self) as [V|]; [|by eauto].
    rewrite Ha0. cbn [mbind result_bind].
    destruct (String.eqb _ _); eauto.
Qed.

(** X3. If [Report.states] has at least two entries and [Visit.actions] at
    least one, the state is computed without an error, and it is the state
    of a report of the drop point or an entry of [Report.states]. *)
Theorem get_last_state_returns (self : DropPoint.t) :
  (2 ≤ length Report_states)%nat →
  (1 ≤ length Visit_actions)%nat →
  ∃ s, last_state self = Ok s ∧
       (s ∈ Report_states ∨
        ∃ r, r ∈ DropPoint.reports self ∧ Report.state r = s).
Proof. apply get_last_state_Ok. Qed.

(** X4. Without any history the state is an [IndexError] when [Report.states]
    has fewer than two entries. *)
Theorem get_last_state_short_states (self : DropPoint.t) :
  DropPoint.reports self = [] → DropPoint.visits self = [] →
  (length Report_states < 2)%nat →
  last_state self = Raise IndexError.
Proof.
  intros HR HV Hlen. rewrite get_last_state_no_history by done.
  apply (getitem_out_of_range _ 1%nat). lia.
Qed.
End MoreStatusFacts.

(** ** More on the reports that count and on the priority *)






Lemma get_new_reports_elem_of (self : DropPoint.t) (r : Report.t) :
  r ∈ DropPoint.get_new_reports self ↔
  r ∈ DropPoint.reports self ∧
  ∀ v, v ∈ DropPoint.visits self → Visit.time v < Report.time r.
Proof.
  unfold DropPoint.get_new_reports.
  destruct (DropPoint.get_last_visit self) as [V|] eqn:HV.
  - apply head_order_by_desc_Some in HV as [HVin HVmax].
    rewrite order_by_desc_Permutation, list_elem_of_filter. split.
    + intros [Hlt Hin]. split; [done|]. intros v Hv.
      specialize (HVmax v Hv). lia.
    + intros [Hin Hall]. split; [by apply Hall|done].
  - apply head_order_by_desc_None in HV.
    rewrite order_by_desc_Permutation, HV. split; [|tauto].
    intros Hin. split; [done|]. by intros v ?%elem_of_nil.
Qed.

Lemma get_new_report_count_length (self : DropPoint.t) :
  DropPoint.get_new_report_count self
  = length (DropPoint.get_new_reports self).
Proof.
  unfold DropPoint.get_new_report_count, DropPoint.get_new_reports,
    DropPoint.get_total_report_count.
  destruct (DropPoint.get_last_visit self);
    by rewrite order_by_desc_Permutation.
Qed.

(** X5. The reports returned by [get_new_reports] are exactly the reports
    that are later than every visit of the drop point. *)
Theorem new_reports_are_after_all_visits (self : DropPoint.t) (r : Report.t) :
  r ∈ DropPoint.get_new_reports self ↔
  r ∈ DropPoint.reports self ∧
  ∀ v, v ∈ DropPoint.visits self → Visit.time v < Report.time r.
Proof. apply get_new_reports_elem_of. Qed.

(** X6. [get_new_report_count] counts the list of [get_new_reports], and it
    never exceeds [get_total_report_count]. *)
Theorem new_report_count_consistent (self : DropPoint.t) :
  DropPoint.get_new_report_count self
  = length (DropPoint.get_new_reports self) ∧
  (DropPoint.get_new_report_count self
   ≤ DropPoint.get_total_report_count self)%nat.
Proof.
  split; [apply get_new_report_count_length|].
  unfold DropPoint.get_new_report_count, DropPoint.get_total_report_count.
  destruct (DropPoint.get_last_visit self); [apply length_filter|done].
Qed.


Section MorePriorityFacts.
Variable get_weight : Report.t → Qc.
Variable config : gmap string Qc.

Abbreviation factor_of := (DropPoint.get_priority_factor get_weight config).
Abbreviation score_of := (DropPoint.get_priority get_weight config).





End MorePriorityFacts.

(** ** More on removal and on the history *)

Lemma remove_Ok_inv (self self' : DropPoint.t) time today :
  DropPoint.remove self time today = (self', Ok ()) →
  DropPoint.removed self = None ∧
  ∃ d, self' = DropPoint.set_removed self d ∧ d ≤ today ∧
       (time = DropPoint.PyDatetime d ∨
        DropPoint.truth time = false ∧ d = today).
Proof.
  unfold DropPoint.remove. intros H.
  destruct (DropPoint.removed self) as [d0|] eqn:Hrem.
  { rewrite bool_decide_eq_true_2 in H by eauto. simplify_eq. }
  rewrite bool_decide_eq_false_2 in H by (by intros [? ?]).
  split; [done|].
  destruct time as [|d|[|]]; simpl in H; simplify_eq.
  - exists today. split; [done|]. split; [lia|]. by right.
  - destruct (Z.ltb_spec today d); simplify_eq.
    exists d. split; [done|]. split; [lia|]. by left.
  - exists today. split; [done|]. split; [lia|]. by right.
Qed.

(** X11. Once [remove] has succeeded, the removal time is not in the future,
    every other column and row is as before, and any further [remove]
    raises [RuntimeError] and changes nothing. *)
Theorem remove_only_once (self self' : DropPoint.t) time today :
  DropPoint.remove self time today = (self', Ok ()) →
  (∃ d, DropPoint.removed self' = Some d ∧ d ≤ today) ∧
  DropPoint.number self' = DropPoint.number self ∧
  DropPoint.time self' = DropPoint.time self ∧
  DropPoint.locations self' = DropPoint.locations self ∧
  DropPoint.reports self' = DropPoint.reports self ∧
  DropPoint.visits self' = DropPoint.visits self ∧
  ∀ time2 today2,
    DropPoint.remove self' time2 today2 = (self', Raise RuntimeError).
Proof.
  intros H. apply remove_Ok_inv in H as (_ & d & -> & Hd & _).
  split; [by exists d|]. repeat split.
Qed.

(** X12. On a drop point that is not removed, a time that is true but not a
    [datetime] raises [TypeError] and changes nothing, and a time that is
    false but not [None] is taken as no time at all. *)
Theorem remove_with_other_time (self : DropPoint.t) (today : datetime) :
  DropPoint.removed self = None →
  DropPoint.remove self (DropPoint.PyOther true) today
  = (self, Raise TypeError) ∧
  DropPoint.remove self (DropPoint.PyOther false) today
  = DropPoint.remove self DropPoint.PyNone today.
Proof.
  intros Hact. unfold DropPoint.remove.
  by rewrite Hact, bool_decide_eq_false_2 by (by intros [? ?]).
Qed.

Lemma get_history_Permutation (self : DropPoint.t) :
  DropPoint.get_history self ≡ₚ expected_events self.
Proof.
  unfold DropPoint.get_history.
  rewrite order_by_desc_Permutation. apply history_unsorted_Permutation.
Qed.

Lemma expected_events_length (self : DropPoint.t) :
  length (expected_events self) =
    (length (DropPoint.visit_rows self)
     + length (DropPoint.report_rows self)
     + length (DropPoint.location_rows self) + 1
     + if DropPoint.removed self is Some _ then 1 else 0)%nat.
Proof.
  unfold expected_events. rewrite !length_app, !length_fmap.
  destruct (DropPoint.removed self); simpl; lia.
Qed.

(** X13. The history has one entry for each visit, report and location, one
    for the creation and one more if the drop point is removed; its first
    entry exists and no entry is later than it. *)
Theorem get_history_newest_first (self : DropPoint.t) :
  length (DropPoint.get_history self) =
    (length (DropPoint.visit_rows self)
     + length (DropPoint.report_rows self)
     + length (DropPoint.location_rows self) + 1
     + if DropPoint.removed self is Some _ then 1 else 0)%nat ∧
  ∃ e, head (DropPoint.get_history self) = Some e ∧
       ∀ e', e' ∈ DropPoint.get_history self →
             DropPoint.event_time e' ≤ DropPoint.event_time e.
Proof.
  split.
  - by rewrite get_history_Permutation, expected_events_length.
  - destruct (head (DropPoint.get_history self)) as [e|] eqn:E.
    + exists e. split; [done|]. intros e' He'.
      unfold DropPoint.get_history in *.
      apply head_order_by_desc_Some in E as [_ Hmax].
      apply Hmax.
      by rewrite <- (order_by_desc_Permutation DropPoint.event_time).
    + apply head_None in E.
      pose proof (get_history_Permutation self) as HP. rewrite E in HP.
      apply Permutation_nil_l in HP. apply (f_equal length) in HP.
      rewrite expected_events_length in HP. simpl in HP. lia.
Qed.

Section RemovalEffects.
Variable Report_states : list string.
Variable Visit_actions : list string.
Variable get_weight : Report.t → Qc.
Variable config : gmap string Qc.

(** X14. After a successful [remove] the factor and the score are 0, the
    state is what it was, and the history has one entry more, among them
    an entry for the removal. *)
Theorem remove_effects (self self' : DropPoint.t) time today now :
  DropPoint.remove self time today = (self', Ok ()) →
  DropPoint.get_priority_factor get_weight config self' = Ok (num 0) ∧
  DropPoint.get_priority get_weight config self' now = Ok (num 0) ∧
  DropPoint.get_last_state Report_states Visit_actions self'
  = DropPoint.get_last_state Report_states Visit_actions self ∧
  length (DropPoint.get_history self')
  = S (length (DropPoint.get_history self)) ∧
  ∃ d, removal_event d ∈ DropPoint.get_history self' ∧ d ≤ today.
Proof.
  intros H. apply remove_Ok_inv in H as (Hact & d & -> & Hd & _).
  assert (is_Some (DropPoint.removed (DropPoint.set_removed self d)))
    as Hrem by (by eexists).
  split; [by apply get_priority_factor_removed|].
  split; [by apply get_priority_removed|].
  split; [done|]. split.
  - rewrite !get_history_Permutation, !expected_events_length, Hact.
    simpl. lia.
  - exists d. split; [|done]. rewrite get_history_Permutation.
    unfold expected_events. simpl. set_solver.
Qed.
End RemovalEffects.

(** ** Numbers and creation *)

Lemma query_get_Some (table : list DropPoint.t) (n : Z) (dp : DropPoint.t) :
  DropPoint.query_get table n = Some dp →
  dp ∈ table ∧ DropPoint.number dp = n.
Proof.
  unfold DropPoint.query_get. intros E.
  assert (dp ∈ filter (λ dp, DropPoint.number dp = n) table) as Hin.
  { destruct (filter _ table); simplify_eq/=. left. }
  apply list_elem_of_filter in Hin. tauto.
Qed.

Lemma query_get_None (table : list DropPoint.t) (n : Z) :
  DropPoint.query_get table n = None ↔
  ∀ dp, dp ∈ table → DropPoint.number dp ≠ n.
Proof.
  unfold DropPoint.query_get. rewrite head_None. split.
  - intros E dp Hin Hn.
    assert (dp ∈ filter (λ dp, DropPoint.number dp = n) table) as H
      by (by apply list_elem_of_filter).
    rewrite E in H. by apply elem_of_nil in H.
  - intros Hall.
    destruct (filter _ table) as [|dp l] eqn:E; [done|].
    assert (dp ∈ filter (λ dp, DropPoint.number dp = n) table) as H
      by (rewrite E; left).
    apply list_elem_of_filter in H as [Hn Hin]. by destruct (Hall dp Hin).
Qed.

Lemma query_get_app_new (table : list DropPoint.t) (dp : DropPoint.t) :
  DropPoint.query_get table (DropPoint.number dp) = None →
  DropPoint.query_get (table ++ [dp]) (DropPoint.number dp) = Some dp.
Proof.
  unfold DropPoint.query_get. rewrite head_None. intros E.
  rewrite filter_app, E, filter_cons, decide_True by done. done.
Qed.

Lemma get_next_free_number_above (table : list DropPoint.t) dp :
  dp ∈ table → DropPoint.number dp < DropPoint.get_next_free_number table.
Proof.
  intros Hin. unfold DropPoint.get_next_free_number.
  destruct (head _) as [m|] eqn:E.
  - apply head_order_by_desc_Some in E as [_ Hmax].
    specialize (Hmax dp Hin). lia.
  - apply head_order_by_desc_None in E. subst.
    by apply elem_of_nil in Hin.
Qed.

(** X15. The next free number is 1 for an empty table, and otherwise one more
    than the greatest number in use: it is above every number in the table,
    and no drop point is found under it. *)
Theorem get_next_free_number_fresh (table : list DropPoint.t) :
  (table = [] → DropPoint.get_next_free_number table = 1) ∧
  (∀ dp, dp ∈ table →
         DropPoint.number dp < DropPoint.get_next_free_number table) ∧
  (table ≠ [] →
   ∃ dp, dp ∈ table ∧
         DropPoint.get_next_free_number table = DropPoint.number dp + 1) ∧
  DropPoint.get table (DropPoint.get_next_free_number table) = None.
Proof.
  split; [by intros ->|]. split; [apply get_next_free_number_above|]. split.
  - intros Hne. unfold DropPoint.get_next_free_number.
    destruct (head _) as [m|] eqn:E.
    + apply head_order_by_desc_Some in E as [Hin _]. eauto.
    + by apply head_order_by_desc_None in E.
  - apply query_get_None. intros dp Hin.
    pose proof (get_next_free_number_above table dp Hin). lia.
Qed.

(** Case analysis of a membership in a list that is written out. *)
Ltac elem_cases H :=
  repeat first
    [ apply elem_of_app in H as [H|H]
    | apply elem_of_cons in H as [H|H]
    | apply elem_of_nil in H; destruct H ];
  try discriminate H.

Section InitFacts.
Variable location_args : Type.
Variable Location_init :
  DropPoint.number_arg → string → DropPoint.time_arg → location_args →
  list DropPoint.error + Location.t.

Abbreviation init := (DropPoint.init location_args Location_init).
Abbreviation init_errors :=
  (DropPoint.init_errors location_args Location_init).

Definition location_errors (number : DropPoint.number_arg)
    (args : location_args) (time : DropPoint.time_arg) (type : string)
    (today : datetime) : list DropPoint.error :=
  match Location_init number type (DropPoint.init_time time today) args with
  | inl e => e
  | inr _ => []
  end.

Lemma init_errors_split table number args time type today :
  init_errors table number args time type today
  = number_errors table number ++ time_errors time today
    ++ location_errors number args time type today.
Proof.
  unfold DropPoint.init_errors, number_errors, time_errors, location_errors.
  cbv zeta.
  destruct (Location_init _ _ _ _) as [e|l];
    destruct number as [n|]; [destruct (n <? 1),
      (bool_decide (is_Some (DropPoint.query_get table n)))| |
      destruct (n <? 1),
      (bool_decide (is_Some (DropPoint.query_get table n)))|];
    destruct time as [|d|[|]]; cbn [DropPoint.truth
      DropPoint.isinstance_datetime negb andb]; try destruct (today <? d);
    by rewrite ?app_nil_l, ?app_nil_r, <- ?app_assoc.
Qed.

Lemma init_inl table number args time type today errors :
  init table number args time type today = inl errors →
  errors = init_errors table number args time type today ∧ errors ≠ [].
Proof.
  unfold DropPoint.init.
  destruct (init_errors table number args time type today) as [|e es] eqn:E.
  - rewrite init_errors_split in E.
    apply app_eq_nil in E as [En E]. apply app_eq_nil in E as [Et _].
    destruct number as [n|]; [|discriminate En].
    destruct time as [|d|[|]]; try discriminate Et; done.
  - by intros [= <-].
Qed.

Lemma init_inr table number args time type today dp :
  init table number args time type today = inr dp →
  init_errors table number args time type today = [] ∧
  ∃ n d, number = DropPoint.IntLike n ∧
         DropPoint.init_time time today = DropPoint.PyDatetime d ∧
         dp = DropPoint.mk n d None
                (match Location_init number type (DropPoint.PyDatetime d)
                         args with
                 | inr l => [l]
                 | inl _ => []
                 end) [] [] type.
Proof.
  unfold DropPoint.init.
  destruct (init_errors table number args time type today) as [|e es] eqn:E;
    [|done].
  destruct number as [n|]; [|done].
  destruct (DropPoint.init_time time today) as [|d|] eqn:Et; try done.
  intros [= <-]. split; [done|]. by exists n, d.
Qed.

(** X16. A failed creation reports every problem at once: the errors of the
    number, then those of the time, then those of the location, none of
    them hidden by another; and a creation fails exactly when one of these
    is present. *)
Theorem init_reports_every_problem table number args time type today :
  (∀ errors,
     init table number args time type today = inl errors ↔
     errors ≠ [] ∧
     errors = number_errors table number ++ time_errors time today
              ++ location_errors number args time type today) ∧
  (number = DropPoint.NotInt ∧
     number_errors table number
     = [("number", "Drop point number is not a number.")] ∨
   ∃ n, number = DropPoint.IntLike n ∧
     (("number", "Drop point number is not positive.")
        ∈ number_errors table number ↔ n < 1) ∧
     (("number", "That drop point already exists.")
        ∈ number_errors table number ↔
      ∃ dp, dp ∈ table ∧ DropPoint.number dp = n)) ∧
  (("DropPoint", "Creation time in the future.") ∈ time_errors time today ↔
   ∃ d, time = DropPoint.PyDatetime d ∧ today < d) ∧
  (("DropPoint", "Creation time not a datetime object.")
     ∈ time_errors time today ↔ time = DropPoint.PyOther true).
Proof.
  split; [|split; [|split]].
  - intros errors. rewrite <- init_errors_split. split.
    + intros H. apply init_inl in H. tauto.
    + intros [Hne ->]. unfold DropPoint.init.
      by destruct (init_errors table number args time type today).
  - destruct number as [n|]; [right|by left]. exists n.
    split; [done|]. unfold number_errors. split.
    + destruct (Z.ltb_spec n 1) as [Hlt|Hge].
      * split; [done|]. intros _. apply elem_of_app. left. left.
      * split; [|lia]. intros H. destruct (bool_decide _); by elem_cases H.
    + destruct (bool_decide_reflect
                  (is_Some (DropPoint.query_get table n))) as [[dp Hs]|Hn].
      * apply query_get_Some in Hs as [??]. split; [by eauto|].
        intros _. apply elem_of_app. right. left.
      * split; [intros H; destruct (n <? 1); by elem_cases H|].
        intros (dp & Hin & Hnum). destruct Hn.
        destruct (DropPoint.query_get table n) eqn:E; [done|].
        rewrite query_get_None in E. by destruct (E dp Hin).
  - unfold time_errors. destruct time as [|d|[|]].
    + split; [intros H; by elem_cases H|by intros (? & ? & ?)].
    + destruct (Z.ltb_spec today d) as [Hlt|Hge].
      * split; [by eauto|]. intros _. left.
      * split; [intros H; by elem_cases H|]. intros (d' & [= <-] & ?). lia.
    + split; [intros H; by elem_cases H|by intros (? & ? & ?)].
    + split; [intros H; by elem_cases H|by intros (? & ? & ?)].
  - unfold time_errors. destruct time as [|d|[|]].
    + split; [intros H; by elem_cases H|done].
    + split; [intros H; destruct (today <? d); by elem_cases H|done].
    + split; [done|]. intros _. left.
    + split; [intros H; by elem_cases H|done].
Qed.
Lemma number_errors_nil table n :
  number_errors table (DropPoint.IntLike n) = [] ↔
  1 ≤ n ∧ DropPoint.query_get table n = None.
Proof.
  unfold number_errors.
  destruct (Z.ltb_spec n 1) as [Hlt|Hge];
    destruct (bool_decide_reflect (is_Some (DropPoint.query_get table n)))
      as [[dp Hs]|Hn]; cbn [app].
  - split; [done|lia].
  - split; [done|lia].
  - split; [done|]. intros [_ E]. by rewrite E in Hs.
  - split; [|done]. intros _. split; [done|].
    destruct (DropPoint.query_get table n); [|done]. destruct Hn. eauto.
Qed.

Lemma time_errors_nil time today :
  time_errors time today = [] ↔
  ∃ d, DropPoint.init_time time today = DropPoint.PyDatetime d ∧ d ≤ today ∧
       (time = DropPoint.PyDatetime d ∨
        DropPoint.truth time = false ∧ d = today).
Proof.
  unfold time_errors, DropPoint.init_time.
  destruct time as [|d|[|]]; cbn [DropPoint.truth].
  - split; [|done]. intros _. exists today. split; [done|].
    split; [lia|by right].
  - destruct (Z.ltb_spec today d) as [Hlt|Hge].
    + split; [done|]. intros (d' & [= <-] & ? & _). lia.
    + split; [|done]. intros _. exists d. split; [done|].
      split; [done|by left].
  - split; [done|]. by intros (d' & [=] & _).
  - split; [|done]. intros _. exists today. split; [done|].
    split; [lia|by right].
Qed.

Lemma time_accepted time today d :
  (time = DropPoint.PyDatetime d ∧ d ≤ today ∨
   DropPoint.truth time = false ∧ d = today) →
  DropPoint.init_time time today = DropPoint.PyDatetime d ∧
  time_errors time today = [].
Proof.
  intros Ht.
  assert (DropPoint.init_time time today = DropPoint.PyDatetime d) as Hi.
  { unfold DropPoint.init_time. destruct Ht as [[E _]|[E1 E2]].
    - by rewrite E.
    - by rewrite E1, E2. }
  split; [done|]. apply time_errors_nil. exists d.
  split; [done|]. split; [|tauto]. destruct Ht as [[_ ?]|[_ ?]]; lia.
Qed.

Lemma init_succeeds_with table n args time type today d l :
  1 ≤ n → DropPoint.query_get table n = None →
  DropPoint.init_time time today = DropPoint.PyDatetime d →
  time_errors time today = [] →
  Location_init (DropPoint.IntLike n) type (DropPoint.PyDatetime d) args
  = inr l →
  init table (DropPoint.IntLike n) args time type today
  = inr (DropPoint.mk n d None [l] [] [] type).
Proof.
  intros Hn Hq Ht Hte Hl. unfold DropPoint.init.
  rewrite init_errors_split, Hte.
  rewrite (proj2 (number_errors_nil table n)) by done.
  unfold location_errors. by rewrite Ht, Hl.
Qed.

(** X17. A creation that succeeds yields a drop point with a positive number
    that was not in use, a creation time that is the given one (or the
    current time) and not in the future, no removal, no reports and no
    visits; it is found under its number afterwards, and the numbers of
    the table stay positive and distinct. *)
Theorem init_creates table number args time type today dp :
  init table number args time type today = inr dp →
  number = DropPoint.IntLike (DropPoint.number dp) ∧
  1 ≤ DropPoint.number dp ∧
  DropPoint.get table (DropPoint.number dp) = None ∧
  DropPoint.time dp ≤ today ∧
  (time = DropPoint.PyDatetime (DropPoint.time dp) ∨
   DropPoint.truth time = false ∧ DropPoint.time dp = today) ∧
  DropPoint.removed dp = None ∧
  DropPoint.reports dp = [] ∧ DropPoint.visits dp = [] ∧
  DropPoint.type dp = type ∧
  DropPoint.get (DropPoint.table_after table (inr dp)) (DropPoint.number dp)
  = Some dp ∧
  (numbers_ok table → numbers_ok (DropPoint.table_after table (inr dp))).
Proof.
  intros H. apply init_inr in H as (He & n & d & -> & Ht & ->).
  rewrite init_errors_split in He.
  apply app_eq_nil in He as [Hn He]. apply app_eq_nil in He as [Hte _].
  apply number_errors_nil in Hn as [Hpos Hfree].
  apply time_errors_nil in Hte as (d' & Ht' & Hd & Hor).
  rewrite Ht in Ht'. injection Ht' as <-.
  cbn [DropPoint.number DropPoint.time DropPoint.removed DropPoint.type
       DropPoint.reports DropPoint.visits DropPoint.report_rows
       DropPoint.visit_rows DropPoint.table_after].
  repeat split; try done.
  - by apply (query_get_app_new table (DropPoint.mk n d None _ [] [] type)).
  - intros dp [Hin|Hin]%elem_of_app; [by apply H|].
    apply list_elem_of_singleton in Hin. by subst.
  - rewrite fmap_app. apply NoDup_app. destruct H as [_ Hnd].
    split; [done|]. split; [|apply NoDup_singleton].
    intros m Hm Hm'. apply list_elem_of_singleton in Hm'. subst.
    apply list_elem_of_fmap in Hm as (dp & Hnum & Hin).
    rewrite query_get_None in Hfree. by destruct (Hfree dp Hin).
Qed.

(** X18. A creation succeeds when the number is positive and not in use, the
    time is a [datetime] not in the future (or no time is given, and the
    current time is taken) and the location is accepted. *)
Theorem init_succeeds table n args time type today d l :
  1 ≤ n →
  (∀ dp, dp ∈ table → DropPoint.number dp ≠ n) →
  (time = DropPoint.PyDatetime d ∧ d ≤ today ∨
   DropPoint.truth time = false ∧ d = today) →
  Location_init (DropPoint.IntLike n) type (DropPoint.PyDatetime d) args
  = inr l →
  init table (DropPoint.IntLike n) args time type today
  = inr (DropPoint.mk n d None [l] [] [] type).
Proof.
  intros Hn Hfree Ht Hl. apply time_accepted in Ht as [Hi Hte].
  apply init_succeeds_with; try done. by apply query_get_None.
Qed.

(** X19. The next free number is always accepted as the number of a new drop
    point when the numbers in the table are positive: the creation can
    then fail only for its time or its location. *)
Theorem init_accepts_next_free_number table args time type today :
  (∀ dp, dp ∈ table → 1 ≤ DropPoint.number dp) →
  init_errors table
    (DropPoint.IntLike (DropPoint.get_next_free_number table)) args time type
    today
  = time_errors time today
    ++ location_errors
         (DropPoint.IntLike (DropPoint.get_next_free_number table)) args time
         type today ∧
  ∀ d l,
    (time = DropPoint.PyDatetime d ∧ d ≤ today ∨
     DropPoint.truth time = false ∧ d = today) →
    Location_init (DropPoint.IntLike (DropPoint.get_next_free_number table))
      type (DropPoint.PyDatetime d) args = inr l →
    init table (DropPoint.IntLike (DropPoint.get_next_free_number table))
      args time type today
    = inr (DropPoint.mk (DropPoint.get_next_free_number table) d None
             [l] [] [] type).
Proof.
  intros Hpos.
  assert (1 ≤ DropPoint.get_next_free_number table) as Hn.
  { destruct table as [|dp table]; [done|].
    assert (dp ∈ dp :: table) as Hin by left.
    pose proof (get_next_free_number_above (dp :: table) dp Hin) as Hlt.
    specialize (Hpos dp Hin). lia. }
  assert (DropPoint.query_get table (DropPoint.get_next_free_number table)
          = None) as Hfree.
  { apply query_get_None. intros dp Hin.
    pose proof (get_next_free_number_above table dp Hin). lia. }
  split.
  - rewrite init_errors_split.
    by rewrite (proj2 (number_errors_nil table _)).
  - intros d l Ht Hl. apply time_accepted in Ht as [Hi Hte].
    by apply init_succeeds_with.
Qed.
End InitFacts.

Section NewDropPoint.
Variable location_args : Type.
Variable Location_init :
  DropPoint.number_arg → string → DropPoint.time_arg → location_args →
  list DropPoint.error + Location.t.
Variable Report_states : list string.
Variable Visit_actions : list string.
Variable get_weight : Report.t → Qc.
Variable config : gmap string Qc.

End NewDropPoint.

(** ** The summary of a drop point *)

Section InfoFacts.
Variable Report_states : list string.
Variable Visit_actions : list string.
Variable get_weight : Report.t → Qc.
Variable config : gmap string Qc.
Variable strftime_s : datetime → string.

Abbreviation get_dp_info :=
  (DropPoint.get_dp_info Report_states Visit_actions get_weight config
     strftime_s).

Lemma get_current_location_None (dp : DropPoint.t) :
  DropPoint.get_current_location dp = None ↔ DropPoint.location_rows dp = [].
Proof.
  unfold DropPoint.get_current_location, DropPoint.locations. split.
  - destruct (order_by_asc _ _) as [|l0 s] eqn:E.
    + intros _.
      by apply (sort_by_nil_inv
                  (λ x y, Location.time x <=? Location.time y)) in E.
    + by intros ?%last_None.
  - by intros ->.
Qed.

(** X21. The summary is [None] for a number that is not in the table, and it is
    an [AttributeError] for a drop point without a location, whatever else
    is on record for it. *)
Theorem get_dp_info_edge_cases (table : list DropPoint.t) (n : Z) today :
  (get_dp_info table n today = Ok None ↔
   ∀ dp, dp ∈ table → DropPoint.number dp ≠ n) ∧
  (∀ dp, DropPoint.get table n = Some dp →
         DropPoint.location_rows dp = [] →
         get_dp_info table n today = Raise AttributeError).
Proof.
  split.
  - rewrite <- query_get_None. unfold DropPoint.get_dp_info, DropPoint.get.
    destruct (DropPoint.query_get table n) as [dp|]; [|done].
    split; [|done]. unfold DropPoint.current_location_attr.
    destruct (DropPoint.get_current_location dp); [|done].
    cbn [mbind result_bind].
    destruct (DropPoint.get_priority _ _ _ _); [|done].
    destruct (DropPoint.get_priority_factor _ _ _); [|done].
    destruct (DropPoint.get_last_state _ _ _); done.
  - intros dp Hget Hloc. unfold DropPoint.get_dp_info.
    rewrite Hget. unfold DropPoint.current_location_attr.
    by rewrite (proj2 (get_current_location_None dp) Hloc).
Qed.

(** X22. A summary that is returned describes the drop point with that
    number: its current location, its counts of reports, of which the new
    ones are at most the total, its score, factor and state as the
    methods give them, and whether it is removed, in which case score and
    factor are 0. *)
Theorem get_dp_info_consistent (table : list DropPoint.t) (n : Z) today i :
  get_dp_info table n today = Ok (Some i) →
  ∃ dp l,
    dp ∈ table ∧ DropPoint.number dp = n ∧
    DropPoint.info_number i = n ∧
    DropPoint.get_current_location dp = Some l ∧
    DropPoint.info_description i = Location.description l ∧
    DropPoint.info_lat i = Location.lat l ∧
    DropPoint.info_lng i = Location.lng l ∧
    DropPoint.info_level i = Location.level l ∧
    (DropPoint.info_reports_new i ≤ DropPoint.info_reports_total i)%nat ∧
    DropPoint.info_reports_total i = length (DropPoint.reports dp) ∧
    DropPoint.get_priority get_weight config dp today
    = Ok (DropPoint.info_priority i) ∧
    DropPoint.get_priority_factor get_weight config dp
    = Ok (DropPoint.info_priority_factor i) ∧
    DropPoint.get_last_state Report_states Visit_actions dp
    = Ok (DropPoint.info_last_state i) ∧
    (DropPoint.info_removed i = true ↔ is_Some (DropPoint.removed dp)) ∧
    (DropPoint.info_removed i = true →
     DropPoint.info_priority i = num 0 ∧
     DropPoint.info_priority_factor i = num 0).
Proof.
  unfold DropPoint.get_dp_info, DropPoint.get. intros H.
  destruct (DropPoint.query_get table n) as [dp|] eqn:Hget; [|done].
  apply query_get_Some in Hget as [Hin Hnum].
  unfold DropPoint.current_location_attr in H.
  destruct (DropPoint.get_current_location dp) as [l|] eqn:Hl; [|done].
  cbn [mbind result_bind] in H.
  destruct (DropPoint.get_priority _ _ _ _) as [p|] eqn:Hp; [|done].
  destruct (DropPoint.get_priority_factor _ _ _) as [f|] eqn:Hf; [|done].
  destruct (DropPoint.get_last_state _ _ _) as [st|] eqn:Hst; [|done].
  cbn [mbind result_bind] in H. injection H as <-.
  exists dp, l.
  cbn [DropPoint.info_number DropPoint.info_description DropPoint.info_lat
       DropPoint.info_lng DropPoint.info_level DropPoint.info_reports_new
       DropPoint.info_reports_total DropPoint.info_priority
       DropPoint.info_priority_factor DropPoint.info_last_state
       DropPoint.info_removed].
  split_and!; try done.
  - unfold DropPoint.get_new_report_count, DropPoint.get_total_report_count.
    destruct (DropPoint.get_last_visit dp); [apply length_filter|done].
  - apply bool_decide_eq_true.
  - intros Hrem%bool_decide_eq_true.
    rewrite get_priority_removed in Hp by done.
    rewrite get_priority_factor_removed in Hf by done.
    by simplify_eq.
Qed.

End InfoFacts.

(** ** Counts by state and by action *)

Lemma by_key_lookup {A} (key : A → string) (keys : list string)
    (query : result (list A)) (m : gmap string Z) (s : string) :
  foldl (λ ret k,
           <[k := Statistics.count_or_zero
                    (Statistics.query_filter (λ x, key x = k) query)]> ret)
        m keys !! s
  = if decide (s ∈ keys)
    then Some (Statistics.count_or_zero
                 (Statistics.query_filter (λ x, key x = s) query))
    else m !! s.
Proof.
  revert m. induction keys as [|k keys IH]; intros m.
  - cbn [foldl]. rewrite decide_False; [done|]. apply not_elem_of_nil.
  - cbn [foldl]. rewrite IH.
    destruct (decide (s ∈ keys)) as [Hin|Hn].
    + rewrite decide_True; [done|]. by right.
    + destruct (decide (s = k)) as [->|Hne].
      * rewrite lookup_insert_eq, decide_True; [done|]. by left.
      * rewrite lookup_insert_ne by done.
        rewrite decide_False; [done|]. by intros [?|?]%elem_of_cons.
Qed.

Lemma count_or_zero_filter {A} (P : A → Prop) `{!∀ x, Decision (P x)}
    (rows : list A) :
  Statistics.count_or_zero (Statistics.query_filter P (Ok rows))
  = count_where P rows.
Proof. done. Qed.

Lemma Z_sum_cons (x : Z) (l : list Z) : Z_sum (x :: l) = x + Z_sum l.
Proof. done. Qed.

Lemma Z_sum_zero {A} (f : A → Z) (l : list A) :
  (∀ x, x ∈ l → f x = 0) → Z_sum (f <$> l) = 0.
Proof.
  induction l as [|x l IH]; intros H; [done|].
  rewrite fmap_cons, Z_sum_cons, IH, H; [done|left|].
  intros y Hy. apply H. by right.
Qed.

Lemma Z_sum_plus {A} (f g : A → Z) (l : list A) :
  Z_sum ((λ x, f x + g x) <$> l) = Z_sum (f <$> l) + Z_sum (g <$> l).
Proof.
  induction l as [|x l IH]; [done|].
  rewrite !fmap_cons, !Z_sum_cons, IH. lia.
Qed.

Lemma indicator_sum (keys : list string) (x : string) :
  NoDup keys → x ∈ keys →
  Z_sum ((λ k, if decide (x = k) then 1 else 0) <$> keys) = 1.
Proof.
  induction 1 as [|k keys Hk Hnd IH]; intros Hin.
  - by apply elem_of_nil in Hin.
  - rewrite fmap_cons, Z_sum_cons.
    destruct (decide (x = k)) as [->|Hne].
    + rewrite Z_sum_zero; [done|].
      intros k' Hk'. rewrite decide_False; [done|]. by intros ->.
    + apply elem_of_cons in Hin as [?|Hin]; [done|]. by rewrite IH.
Qed.

Lemma by_key_total {A} (key : A → string) (keys : list string)
    (rows : list A) :
  NoDup keys → (∀ x, x ∈ rows → key x ∈ keys) →
  Z_sum ((λ k, count_where (λ x, key x = k) rows) <$> keys)
  = Z.of_nat (length rows).
Proof.
  intros Hnd. induction rows as [|x rows IH]; intros Hall.
  - by rewrite Z_sum_zero.
  - assert (∀ k, count_where (λ x0, key x0 = k) (x :: rows)
                 = (if decide (key x = k) then 1 else 0)
                   + count_where (λ x0, key x0 = k) rows) as Hstep.
    { intros k. unfold count_where. rewrite filter_cons.
      destruct (decide (key x = k)); cbn [length]; lia. }
    rewrite (list_fmap_ext _ _ keys (λ _ k _, Hstep k)).
    rewrite (Z_sum_plus (λ k, if decide (key x = k) then 1 else 0)).
    rewrite indicator_sum, IH; [cbn [length]; lia| |done|].
    + intros y Hy. apply Hall. by right.
    + apply Hall. left.
Qed.

(** X24. [reports_by_state] has exactly the entries of [Report.states] as
    keys; the value under a state is the number of reports with that state,
    and 0 when the query fails. *)
Theorem reports_by_state_counts (Report_states : list string)
    (query : result (list Report.t)) (s : string) :
  Statistics.reports_by_state Report_states query !! s
  = if decide (s ∈ Report_states)
    then Some (match query with
               | Ok rows => count_where (λ r, Report.state r = s) rows
               | Raise _ => 0
               end)
    else None.
Proof.
  unfold Statistics.reports_by_state.
  rewrite (by_key_lookup Report.state), lookup_empty.
  by destruct query.
Qed.

(** X25. When [Report.states] has no duplicates and holds the state of every
    report, the counts by state add up to [report_count]. *)
Theorem reports_by_state_total (Report_states : list string)
    (rows : list Report.t) :
  NoDup Report_states →
  (∀ r, r ∈ rows → Report.state r ∈ Report_states) →
  Z_sum ((λ s, default 0
                 (Statistics.reports_by_state Report_states (Ok rows) !! s))
         <$> Report_states)
  = Statistics.report_count (Ok rows).
Proof.
  intros Hnd Hall.
  change (Statistics.report_count (Ok rows)) with (Z.of_nat (length rows)).
  rewrite <- (by_key_total Report.state Report_states rows) by done.
  f_equal. apply list_fmap_ext. intros i s Hs.
  unfold Statistics.reports_by_state.
  rewrite (by_key_lookup Report.state), decide_True; [done|].
  by eapply list_elem_of_lookup_2.
Qed.

(** X26. [visits_by_action] has exactly the entries of [Visit.actions] as keys,
    each with the number of visits with that action (0 when the query
    fails); without duplicates among the actions, and with the action of
    every visit among them, the counts add up to [visit_count]. *)
Theorem visits_by_action_counts (Visit_actions : list string)
    (query : result (list Visit.t)) :
  (∀ a, Statistics.visits_by_action Visit_actions query !! a
        = if decide (a ∈ Visit_actions)
          then Some (match query with
                     | Ok rows => count_where (λ v, Visit.action v = a) rows
                     | Raise _ => 0
                     end)
          else None) ∧
  (∀ rows, query = Ok rows → NoDup Visit_actions →
     (∀ v, v ∈ rows → Visit.action v ∈ Visit_actions) →
     Z_sum ((λ a, default 0
                    (Statistics.visits_by_action Visit_actions query !! a))
            <$> Visit_actions)
     = Statistics.visit_count query).
Proof.
  split.
  - intros a. unfold Statistics.visits_by_action.
    rewrite (by_key_lookup Visit.action), lookup_empty. by destruct query.
  - intros rows -> Hnd Hall.
    change (Statistics.visit_count (Ok rows)) with (Z.of_nat (length rows)).
    rewrite <- (by_key_total Visit.action Visit_actions rows) by done.
    f_equal. apply list_fmap_ext. intros i a Ha.
    unfold Statistics.visits_by_action.
    rewrite (by_key_lookup Visit.action), decide_True; [done|].
    by eapply list_elem_of_lookup_2.
Qed.

Lemma filter_insert_drop {A} (P : A → Prop) `{!∀ x, Decision (P x)}
    (l : list A) (i : nat) (x y : A) :
  l !! i = Some x → P x → ¬ P y →
  S (length (filter P (<[i:=y]> l))) = length (filter P l).
Proof.
  intros Hi Hx Hy. pose proof (lookup_lt_Some _ _ _ Hi) as Hlt.
  rewrite insert_take_drop by done.
  rewrite <- (take_drop_middle l i x Hi) at 3.
  rewrite !filter_app, !length_app, !filter_cons.
  rewrite decide_False, decide_True by done. cbn [length]. lia.
Qed.

(** X27. [drop_point_count] counts the drop points that are not removed, and
    it is 0 when the query fails; after a successful [remove] of one drop
    point of the table it is smaller by one. *)
Theorem drop_point_count_after_remove (table : list DropPoint.t)
    (i : nat) (dp dp' : DropPoint.t) time today :
  table !! i = Some dp →
  DropPoint.remove dp time today = (dp', Ok ()) →
  Statistics.drop_point_count (Ok table)
  = count_where (λ dp, DropPoint.removed dp = None) table ∧
  Statistics.drop_point_count (Ok (<[i:=dp']> table))
  = Statistics.drop_point_count (Ok table) - 1 ∧
  ∀ e, Statistics.drop_point_count (Raise e) = 0.
Proof.
  intros Hi Hrem. apply remove_Ok_inv in Hrem as (Hact & d & -> & _).
  split; [done|]. split; [|done].
  unfold Statistics.drop_point_count.
  rewrite !count_or_zero_filter. unfold count_where.
  rewrite <- (filter_insert_drop _ table i dp (DropPoint.set_removed dp d))
    by done.
  lia.
Qed.

(** * Further scenarios *)

Lemma get_last_state_visits_only_witness :
  DropPoint.get_last_state sample_states sample_actions visited_only
  = Ok "NEW".
Proof.
  rewrite (get_last_state_visits_only sample_states sample_actions
             visited_only (Visit.mk (seconds 30) "ADDED_CRATE")
             "EMPTIED" "EMPTY" "NEW" eq_refl eq_refl eq_refl eq_refl eq_refl).
  reflexivity.
Defined.

Lemma get_last_state_returns_witness :
  ∃ s, DropPoint.get_last_state sample_states sample_actions emptied_later
       = Ok s ∧
       (s ∈ sample_states ∨
        ∃ r, r ∈ DropPoint.reports emptied_later ∧ Report.state r = s).
Proof.
  apply get_last_state_returns; vm_compute; lia.
Defined.

Lemma get_last_state_short_states_witness :
  DropPoint.get_last_state ["DEFAULT"] sample_actions untouched
  = Raise IndexError.
Proof.
  apply get_last_state_short_states; [reflexivity|reflexivity|].
  vm_compute. lia.
Defined.






Lemma remove_only_once_witness :
  (∃ d, DropPoint.removed (DropPoint.set_removed untouched (seconds 200))
        = Some d ∧ d ≤ seconds 200) ∧
  DropPoint.number (DropPoint.set_removed untouched (seconds 200))
  = DropPoint.number untouched ∧
  DropPoint.time (DropPoint.set_removed untouched (seconds 200))
  = DropPoint.time untouched ∧
  DropPoint.locations (DropPoint.set_removed untouched (seconds 200))
  = DropPoint.locations untouched ∧
  DropPoint.reports (DropPoint.set_removed untouched (seconds 200))
  = DropPoint.reports untouched ∧
  DropPoint.visits (DropPoint.set_removed untouched (seconds 200))
  = DropPoint.visits untouched ∧
  ∀ time2 today2,
    DropPoint.remove (DropPoint.set_removed untouched (seconds 200))
      time2 today2
    = (DropPoint.set_removed untouched (seconds 200), Raise RuntimeError).
Proof.
  exact (remove_only_once untouched _ DropPoint.PyNone (seconds 200) eq_refl).
Defined.

Lemma remove_with_other_time_witness :
  DropPoint.remove untouched (DropPoint.PyOther true) (seconds 200)
  = (untouched, Raise TypeError) ∧
  DropPoint.remove untouched (DropPoint.PyOther false) (seconds 200)
  = DropPoint.remove untouched DropPoint.PyNone (seconds 200).
Proof. exact (remove_with_other_time untouched (seconds 200) eq_refl). Defined.

Lemma remove_effects_witness :
  DropPoint.get_priority_factor weight_four default_config
    (DropPoint.set_removed reported_once (seconds 2000)) = Ok (num 0) ∧
  DropPoint.get_priority weight_four default_config
    (DropPoint.set_removed reported_once (seconds 2000)) (seconds 4600)
  = Ok (num 0) ∧
  DropPoint.get_last_state sample_states sample_actions
    (DropPoint.set_removed reported_once (seconds 2000))
  = DropPoint.get_last_state sample_states sample_actions reported_once ∧
  length (DropPoint.get_history
            (DropPoint.set_removed reported_once (seconds 2000)))
  = S (length (DropPoint.get_history reported_once)) ∧
  ∃ d, removal_event d
         ∈ DropPoint.get_history
             (DropPoint.set_removed reported_once (seconds 2000)) ∧
       d ≤ seconds 3000.
Proof.
  exact (remove_effects sample_states sample_actions weight_four
           default_config reported_once _
           (DropPoint.PyDatetime (seconds 2000)) (seconds 3000)
           (seconds 4600) eq_refl).
Defined.

Lemma init_creates_witness :
  let dp := DropPoint.mk 2 (seconds 10) None
              [Location.mk (seconds 10) "hall" (num 0) (num 0) 0] [] []
              "bottle" in
  DropPoint.IntLike 2 = DropPoint.IntLike (DropPoint.number dp) ∧
  1 ≤ DropPoint.number dp ∧
  DropPoint.get sample_table (DropPoint.number dp) = None ∧
  DropPoint.time dp ≤ seconds 10 ∧
  (DropPoint.PyNone = DropPoint.PyDatetime (DropPoint.time dp) ∨
   DropPoint.truth DropPoint.PyNone = false ∧
   DropPoint.time dp = seconds 10) ∧
  DropPoint.removed dp = None ∧
  DropPoint.reports dp = [] ∧ DropPoint.visits dp = [] ∧
  DropPoint.type dp = "bottle" ∧
  DropPoint.get (DropPoint.table_after sample_table (inr dp))
    (DropPoint.number dp) = Some dp ∧
  (numbers_ok sample_table →
   numbers_ok (DropPoint.table_after sample_table (inr dp))).
Proof.
  exact (init_creates string sample_Location_init sample_table
           (DropPoint.IntLike 2) "hall" DropPoint.PyNone "bottle"
           (seconds 10) _ eq_refl).
Defined.

Lemma sample_table_numbers (dp : DropPoint.t) :
  dp ∈ sample_table → 1 ≤ DropPoint.number dp ∧ DropPoint.number dp ≠ 2.
Proof. intros H. elem_cases H; subst dp; split; vm_compute; discriminate. Qed.

Lemma init_succeeds_witness :
  DropPoint.init string sample_Location_init sample_table
    (DropPoint.IntLike 2) "hall" (DropPoint.PyDatetime (seconds 5)) "bottle"
    (seconds 10)
  = inr (DropPoint.mk 2 (seconds 5) None
           [Location.mk (seconds 5) "hall" (num 0) (num 0) 0] [] []
           "bottle").
Proof.
  apply init_succeeds.
  - lia.
  - intros dp Hin. by apply sample_table_numbers.
  - left. split; [reflexivity|]. vm_compute. discriminate.
  - reflexivity.
Defined.

Lemma init_accepts_next_free_number_witness :
  DropPoint.init_errors string sample_Location_init sample_table
    (DropPoint.IntLike (DropPoint.get_next_free_number sample_table))
    "hall" (DropPoint.PyDatetime (seconds 50)) "bottle" (seconds 10)
  = time_errors (DropPoint.PyDatetime (seconds 50)) (seconds 10)
    ++ location_errors string sample_Location_init
         (DropPoint.IntLike (DropPoint.get_next_free_number sample_table))
         "hall" (DropPoint.PyDatetime (seconds 50)) "bottle" (seconds 10) ∧
  ∀ d l,
    (DropPoint.PyDatetime (seconds 50) = DropPoint.PyDatetime d ∧
     d ≤ seconds 10 ∨
     DropPoint.truth (DropPoint.PyDatetime (seconds 50)) = false ∧
     d = seconds 10) →
    sample_Location_init
      (DropPoint.IntLike (DropPoint.get_next_free_number sample_table))
      "bottle" (DropPoint.PyDatetime d) "hall" = inr l →
    DropPoint.init string sample_Location_init sample_table
      (DropPoint.IntLike (DropPoint.get_next_free_number sample_table))
      "hall" (DropPoint.PyDatetime (seconds 50)) "bottle" (seconds 10)
    = inr (DropPoint.mk (DropPoint.get_next_free_number sample_table) d None
             [l] [] [] "bottle").
Proof.
  apply init_accepts_next_free_number.
  intros dp Hin. by apply sample_table_numbers.
Defined.


Lemma get_dp_info_consistent_witness :
  ∃ i,
    DropPoint.get_dp_info sample_states sample_actions weight_four
      default_config sample_strftime sample_table 3 (seconds 4600)
    = Ok (Some i) ∧
    DropPoint.info_number i = 3 ∧
    (DropPoint.info_reports_new i ≤ DropPoint.info_reports_total i)%nat ∧
    DropPoint.info_last_state i = "EMPTY" ∧
    DropPoint.info_base_time i = "30".
Proof.
  eexists. split; [reflexivity|].
  destruct (get_dp_info_consistent sample_states sample_actions weight_four
              default_config sample_strftime sample_table 3 (seconds 4600)
              _ eq_refl)
    as (dp & l & _ & _ & Hn & _ & _ & _ & _ & _ & Hle & _).
  split; [exact Hn|]. split; [exact Hle|]. split; reflexivity.
Defined.

Lemma sample_states_NoDup : NoDup sample_states.
Proof. apply (bool_decide_unpack _). by vm_compute. Qed.

Lemma reports_by_state_total_witness :
  Z_sum ((λ s, default 0
                 (Statistics.reports_by_state sample_states
                    (Ok sample_reports) !! s))
         <$> sample_states)
  = Statistics.report_count (Ok sample_reports).
Proof.
  apply reports_by_state_total; [exact sample_states_NoDup|].
  intros r Hr. elem_cases Hr; subst r; vm_compute; set_solver.
Defined.

Lemma drop_point_count_after_remove_witness :
  Statistics.drop_point_count (Ok sample_table)
  = count_where (λ dp, DropPoint.removed dp = None) sample_table ∧
  Statistics.drop_point_count
    (Ok (<[0%nat := DropPoint.set_removed untouched (seconds 200)]>
           sample_table))
  = Statistics.drop_point_count (Ok sample_table) - 1 ∧
  ∀ e, Statistics.drop_point_count (Raise e) = 0.
Proof.
  exact (drop_point_count_after_remove sample_table 0 untouched _
           DropPoint.PyNone (seconds 200) eq_refl eq_refl).
Defined.

(** The counts of [sample_table] and [sample_reports]. *)
Example sample_counts :
  Statistics.drop_point_count (Ok sample_table) = 2 ∧
  Statistics.reports_by_state sample_states (Ok sample_reports) !! "FULL"
  = Some 2 ∧
  Statistics.reports_by_state sample_states (Raise StoreError) !! "FULL"
  = Some 0 ∧
  DropPoint.get_next_free_number sample_table = 6.
Proof. repeat split. Qed.
